(** * A Socket.IO publish/subscribe hub: model of [server_fixed.py]

    The server keeps two module-level dictionaries, [connected_clients]
    and [client_subscriptions], mutated by the Socket.IO event handlers,
    and runs [broadcast_frames], a background loop that once per second
    produces an image and emits it to every connection subscribed to the
    topic ['stream_frames'].

    The embedding is shallow: every handler is a function from the request
    context (the session id, the payload, a reading of the clock) and the
    two dictionaries to the updated dictionaries, the list of effects
    performed in order (prints, emits, calls of the image generator) and
    the exception raised, if any.

    Modelling choices:
    - handlers and scheduler ticks run one at a time; interleavings
      inside a handler or inside a tick are outside the model;
    - the clock is an input: each handler is given the reading it makes;
    - the imaging library (PIL, base64) is a function parameter, and
      [generate_test_image] always returns;
    - [socketio.emit] in the scheduler may raise, as decided by an
      oracle given to the tick: that is the exception the [try] of
      [broadcast_frames] is there for.  The [emit] calls of the event
      handlers are recorded as calls that return;
    - payload numbers are integers. *)

From Stdlib Require Import ZArith NArith String Ascii.
From Stdlib Require Import DecimalString DecimalPos DecimalN DecimalZ.
From stdpp Require Import base option list gmap sets strings.

#[local] Open Scope string_scope.
#[local] Open Scope list_scope.
#[local] Set Warnings "-register-all".
#[local] Set Default Proof Using "Type".

(** ** Python values *)

(** The values that reach the handlers as event payloads and that the
    handlers emit: JSON data as Python sees it.  Numbers are integers;
    a dictionary has string keys and is kept in insertion order. *)
Inductive pyval : Type :=
| PNone
| PBool (b : bool)
| PInt (z : Z)
| PStr (s : string)
| PList (l : list pyval)
| PDict (d : list (string * pyval)).

(** The exceptions the modelled code can raise. [SendError] stands for
    whatever a call of [socketio.emit] raises when the send fails. *)
Inductive pyexn : Type :=
| AttributeError
| TypeError
| SendError.

(** Python truthiness, as tested by [if data]. *)
Definition truthy (v : pyval) : bool :=
  match v with
  | PNone => false
  | PBool b => b
  | PInt z => negb (z =? 0)%Z
  | PStr s => negb (String.eqb s "")
  | PList l => match l with [] => false | _ => true end
  | PDict d => match d with [] => false | _ => true end
  end.

(** [v == s] for a string literal [s]. *)
Definition py_eq_str (v : pyval) (s : string) : bool :=
  match v with
  | PStr s' => String.eqb s' s
  | _ => false
  end.

(** ** Dictionaries

    A Python [dict] iterates in insertion order, and the broadcast loop
    iterates over [client_subscriptions.items()], so a dictionary is an
    association list: [d[k] = v] overwrites in place when [k] is present
    and appends otherwise, [del d[k]] drops the entry.  The
    representation invariant is [dict_wf]: no key occurs twice. *)
Abbreviation dict V := (list (string * V)).

Definition dict_keys {V} (d : dict V) : list string := d.*1.

Definition dict_wf {V} (d : dict V) : Prop := NoDup (dict_keys d).

Fixpoint dict_get {V} (d : dict V) (k : string) : option V :=
  match d with
  | [] => None
  | (k', v) :: r => if decide (k = k') then Some v else dict_get r k
  end.

(** [k in d] *)
Definition dict_in {V} (k : string) (d : dict V) : bool :=
  match dict_get d k with Some _ => true | None => false end.

(** [d[k] = v] *)
Fixpoint dict_set {V} (d : dict V) (k : string) (v : V) : dict V :=
  match d with
  | [] => [(k, v)]
  | (k', v') :: r =>
      if decide (k = k') then (k, v) :: r else (k', v') :: dict_set r k v
  end.

(** [del d[k]] *)
Fixpoint dict_del {V} (d : dict V) (k : string) : dict V :=
  match d with
  | [] => []
  | (k', v') :: r =>
      if decide (k = k') then dict_del r k else (k', v') :: dict_del r k
  end.

(** [data.get(key, dflt)]: only a dictionary has [get]. *)
Definition py_get (data : pyval) (key : string) (dflt : pyval)
  : pyexn + pyval :=
  match data with
  | PDict d => inr (default dflt (dict_get d key))
  | _ => inl AttributeError
  end.

(** ** Topics

    A subscription set is a Python [set].  Its elements are the hashable
    payload values: [None], integers (a boolean hashes and compares as
    the integer 0 or 1) and strings.  Lists and dictionaries are
    unhashable, and [set.add] raises [TypeError] on them. *)
Inductive hkey : Type :=
| KNone
| KInt (z : Z)
| KStr (s : string).

#[global] Instance hkey_eq_dec : EqDecision hkey.
Proof. solve_decision. Defined.

Definition hkey_encode (k : hkey) : unit + (Z + string) :=
  match k with
  | KNone => inl tt
  | KInt z => inr (inl z)
  | KStr s => inr (inr s)
  end.

Definition hkey_decode (x : unit + (Z + string)) : hkey :=
  match x with
  | inl _ => KNone
  | inr (inl z) => KInt z
  | inr (inr s) => KStr s
  end.

#[global] Instance hkey_countable : Countable hkey.
Proof.
  refine (inj_countable' hkey_encode hkey_decode _).
  by intros [].
Defined.

Definition hash_key (v : pyval) : pyexn + hkey :=
  match v with
  | PNone => inr KNone
  | PBool b => inr (KInt (if b then 1 else 0))
  | PInt z => inr (KInt z)
  | PStr s => inr (KStr s)
  | PList _ | PDict _ => inl TypeError
  end.

(** The topic that gates the broadcast: the literal ['stream_frames']. *)
Definition stream_frames : string := "stream_frames".

(** ** Clock, connection records and the shared state *)

(** One reading of the wall clock, in the three renderings the source
    asks for: [int(time.time())], [strftime("%H:%M:%S")] and
    [isoformat()]. *)
Record instant : Type := {
  unix_seconds : Z;
  clock_text : string;
  iso_text : string
}.

(** The value stored in [connected_clients]:
    [{'connected_at': datetime.now(), 'ip': request.remote_addr}]. *)
Record client : Type := {
  connected_at : instant;
  ip : option string
}.

(** The two module-level dictionaries. *)
Record world : Type := {
  connected_clients : dict client;
  client_subscriptions : dict (gset hkey)
}.

Definition initial_world : world :=
  {| connected_clients := []; client_subscriptions := [] |}.

(** ** Effects *)

(** The lines the code prints, one constructor per [print] call. *)
Inductive logline : Type :=
| LogConnected (sid : string)
| LogDisconnected (sid : string)
| LogSubscribed (sid : string) (topic : pyval)
| LogReceivedData (sid : string)
| LogHaveData
| LogTheData (data : pyval)
| LogNoData
| LogWhatIsReceived (field : pyval)
| LogRequestImage (sid : string) (data : pyval)
| LogSentImage (sid : string)
| LogFeedback (message : pyval)
| LogUnrecognized
| LogSentFrame (frame_name : string) (sid : string)
| LogBroadcasted (frame_name : string) (clients : nat)
| LogLoopError (e : pyexn).

(** What a handler or a tick does to the outside, in program order.
    [Emit] is a call of [emit] that returned, [EmitRaised] one that
    raised; [Produce] is a call of [generate_test_image] with its result;
    [Sleep] is [time.sleep]. *)
Inductive effect : Type :=
| Print (l : logline)
| Emit (room : string) (event : string) (payload : pyval)
| EmitRaised (room : string) (event : string) (payload : pyval)
| Produce (frame : pyval)
| Sleep (seconds : nat).

(** The result of running one handler. *)
Record reply : Type := {
  after : world;
  trace : list effect;
  raised : option pyexn
}.

Definition opt_str (o : option string) : pyval :=
  match o with Some s => PStr s | None => PNone end.

(** ** The event handlers *)

(** [handle_connect], lines 21-37.  [emit] inside a handler replies to
    the connection whose event is being handled. *)
Definition handle_connect (sid : string) (remote_addr : option string)
    (now : instant) (w : world) : reply :=
  let clients :=
    dict_set (connected_clients w) sid
             {| connected_at := now; ip := remote_addr |} in
  let subs := dict_set (client_subscriptions w) sid ∅ in
  {| after := {| connected_clients := clients; client_subscriptions := subs |};
     trace :=
       [ Print (LogConnected sid);
         Emit sid "welcome"
           (PDict [ ("message", PStr "Connected to Socket.IO server");
                    ("server_time", PStr (iso_text now));
                    ("client_id", PStr sid) ]) ];
     raised := None |}.

(** [handle_disconnect], lines 39-47. *)
Definition handle_disconnect (sid : string) (w : world) : reply :=
  let clients :=
    if dict_in sid (connected_clients w)
    then dict_del (connected_clients w) sid
    else connected_clients w in
  let subs :=
    if dict_in sid (client_subscriptions w)
    then dict_del (client_subscriptions w) sid
    else client_subscriptions w in
  {| after := {| connected_clients := clients; client_subscriptions := subs |};
     trace := [ Print (LogDisconnected sid) ];
     raised := None |}.

(** Lines 54-57 of [handle_subscribe]: the topic named by the payload. *)
Definition subscribe_topic (data : pyval) : pyexn + pyval :=
  match data with
  | PStr s => inr (PStr s)
  | _ => py_get data "topic" (PStr "")
  end.

(** [handle_subscribe], lines 49-68.  The entry for [sid] is created
    before [set.add] runs, so it is there even when [add] raises. *)
Definition handle_subscribe (sid : string) (data : pyval) (w : world) : reply :=
  match subscribe_topic data with
  | inl e => {| after := w; trace := []; raised := Some e |}
  | inr topic =>
      let subs :=
        if dict_in sid (client_subscriptions w)
        then client_subscriptions w
        else dict_set (client_subscriptions w) sid ∅ in
      match hash_key topic with
      | inl e =>
          {| after := {| connected_clients := connected_clients w;
                         client_subscriptions := subs |};
             trace := [];
             raised := Some e |}
      | inr k =>
          let mine := default ∅ (dict_get subs sid) in
          {| after := {| connected_clients := connected_clients w;
                         client_subscriptions := dict_set subs sid (mine ∪ {[ k ]}) |};
             trace :=
               [ Print (LogSubscribed sid topic);
                 Emit sid "subscription_confirmed"
                   (PDict [ ("topic", topic); ("status", PStr "subscribed") ]) ];
             raised := None |}
      end
  end.

(** The handler registered for ['recieved_data'], lines 70-80.  The last
    [print] sits in the [else] branch, where [data] is falsy. *)
Definition recieved_data (sid : string) (data : pyval) (w : world) : reply :=
  if truthy data then
    {| after := w;
       trace := [ Print (LogReceivedData sid); Print LogHaveData;
                  Print (LogTheData data) ];
       raised := None |}
  else
    match py_get data "data" PNone with
    | inl e =>
        {| after := w;
           trace := [ Print (LogReceivedData sid); Print LogNoData ];
           raised := Some e |}
    | inr field =>
        {| after := w;
           trace := [ Print (LogReceivedData sid); Print LogNoData;
                      Print (LogWhatIsReceived field) ];
           raised := None |}
    end.

(** [process_data] as rebound at line 185: [pass]. *)
Definition process_data (data : pyval) : unit := tt.

(** [handle_recieved_data], lines 172-183. *)
Definition handle_recieved_data (sid : string) (data : pyval) (w : world)
  : reply :=
  if truthy data then
    let _ := process_data data in
    {| after := w;
       trace := [ Print (LogReceivedData sid); Print (LogTheData data) ];
       raised := None |}
  else {| after := w; trace := []; raised := None |}.

(** [f"{i}"] for the loop counter and for [int(time.time())]. *)
Definition str_of_N (n : N) : string := NilZero.string_of_uint (N.to_uint n).
Definition str_of_Z (z : Z) : string := NilZero.string_of_int (Z.to_int z).

(** [MembersOf(topic)]: the ids whose set contains the topic, in the
    iteration order of the dictionary (the comprehension of line 164 and
    the loop of lines 159-160). *)
Definition members_of (k : hkey) (subs : dict (gset hkey)) : list string :=
  (filter (λ entry, k ∈ entry.2) subs).*1.

(** The state of the whole process: the shared dictionaries and the
    local counter [i] of [broadcast_frames]. *)
Record hub : Type := {
  shared : world;
  counter : N
}.

Definition initial_hub : hub := {| shared := initial_world; counter := 0 |}.

(** What one iteration of the scheduler loop leaves behind: the next
    value of [i], the effects, and the exception its [except] clause
    caught, if any. *)
Record ticked : Type := {
  next_counter : N;
  tick_trace : list effect;
  caught : option pyexn
}.

(** The text drawn on the image, line 118. *)
Definition image_text (now : instant) : string :=
  "Socket.IO Test Image" +:+ String "010" "Time: " +:+ clock_text now.

Section Hub.

(** The imaging library is a black box: [png_base64 text] is the
    base64 text of the PNG of the 400x300 test image with [text] drawn
    on it (lines 106-129). *)
Variable png_base64 : string -> string.

(** [generate_test_image], lines 102-137. *)
Definition generate_test_image (now : instant) : pyval :=
  let width := 400%Z in
  let height := 300%Z in
  let text := image_text now in
  let img_base64 := png_base64 text in
  PDict [ ("img_name", PStr ("test_image_" +:+ str_of_Z (unix_seconds now) +:+ ".png"));
          ("base_64_img", PStr img_base64);
          ("timestamp", PStr (iso_text now));
          ("width", PInt width);
          ("height", PInt height) ].

(** [handle_request_image], lines 82-100. [data] defaults to [None]. *)
Definition handle_request_image (sid : string) (data : pyval)
    (now : instant) (w : world) : reply :=
  let received := Print (LogRequestImage sid data) in
  if truthy data then
    match py_get data "type" PNone with
    | inl e => {| after := w; trace := [ received ]; raised := Some e |}
    | inr ty =>
        if py_eq_str ty "request" then
          let img_data := generate_test_image now in
          {| after := w;
             trace :=
               [ received;
                 Produce img_data;
                 Emit sid "request_image"
                   (PDict [ ("type", PStr "response"); ("image_data", img_data) ]);
                 Print (LogSentImage sid) ];
             raised := None |}
        else if py_eq_str ty "feedback" then
          match py_get data "message" PNone with
          | inl e => {| after := w; trace := [ received ]; raised := Some e |}
          | inr message =>
              {| after := w;
                 trace := [ received; Print (LogFeedback message) ];
                 raised := None |}
          end
        else
          {| after := w; trace := [ received; Print LogUnrecognized ];
             raised := None |}
    end
  else
    {| after := w; trace := [ received; Print LogUnrecognized ];
       raised := None |}.

(** The envelope built at lines 150-156.  [img_data] is the dictionary
    returned by [generate_test_image], which has the key
    ['base_64_img']. *)
Definition envelope (frame_name : string) (img_data : pyval) : pyval :=
  PDict [ ("title", PStr "send_frames");
          ("data",
           PDict [ ("frame_name", PStr frame_name);
                   ("frame_data",
                    match img_data with
                    | PDict d => default PNone (dict_get d "base_64_img")
                    | _ => PNone
                    end) ]) ].

(** The [for] loop of lines 159-162 over the items of
    [client_subscriptions].  [emit_raises sid] tells whether
    [socketio.emit(..., room=sid)] raises; a raising call ends the loop,
    since the enclosing [try] is outside it. *)
Fixpoint fan_out (emit_raises : string -> bool) (frame_name : string)
    (frame_data : pyval) (items : dict (gset hkey))
  : list effect * option pyexn :=
  match items with
  | [] => ([], None)
  | (sid, subscriptions) :: rest =>
      if decide (KStr stream_frames ∈ subscriptions) then
        if emit_raises sid then
          ([ EmitRaised sid "stream_frames" frame_data ], Some SendError)
        else
          let '(tr, r) := fan_out emit_raises frame_name frame_data rest in
          (Emit sid "stream_frames" frame_data
             :: Print (LogSentFrame frame_name sid) :: tr, r)
      else fan_out emit_raises frame_name frame_data rest
  end.

(** One iteration of the [while True] loop of [broadcast_frames],
    lines 142-170, started with the counter at [i]. *)
Definition tick (emit_raises : string -> bool) (now : instant)
    (w : world) (i : N) : ticked :=
  match connected_clients w with
  | [] => {| next_counter := i; tick_trace := [ Sleep 1 ]; caught := None |}
  | _ :: _ =>
      let img_data := generate_test_image now in
      let frame_name := "test_frame_" +:+ str_of_N i in
      let frame_data := envelope frame_name img_data in
      match fan_out emit_raises frame_name frame_data (client_subscriptions w) with
      | (sent, None) =>
          {| next_counter := i + 1;
             tick_trace :=
               Produce img_data :: sent ++
               [ Print (LogBroadcasted frame_name
                          (length (members_of (KStr stream_frames)
                                              (client_subscriptions w))));
                 Sleep 1 ];
             caught := None |}
      | (sent, Some e) =>
          {| next_counter := i;
             tick_trace :=
               Produce img_data :: sent ++ [ Print (LogLoopError e); Sleep 1 ];
             caught := Some e |}
      end
  end.

(** ** Runs

    What can happen to the process: an inbound event handled by its
    handler, or one turn of the scheduler loop. *)
Inductive event : Type :=
| Connect (sid : string) (remote_addr : option string) (now : instant)
| Disconnect (sid : string)
| Subscribe (sid : string) (data : pyval)
| RecievedData (sid : string) (data : pyval)
| HandleData (sid : string) (data : pyval)
| RequestImage (sid : string) (data : pyval) (now : instant)
| Tick (emit_raises : string -> bool) (now : instant).

Definition handled (h : hub) (r : reply) : hub * list effect :=
  ({| shared := after r; counter := counter h |}, trace r).

Definition step (h : hub) (e : event) : hub * list effect :=
  match e with
  | Connect sid addr now => handled h (handle_connect sid addr now (shared h))
  | Disconnect sid => handled h (handle_disconnect sid (shared h))
  | Subscribe sid data => handled h (handle_subscribe sid data (shared h))
  | RecievedData sid data => handled h (recieved_data sid data (shared h))
  | HandleData sid data => handled h (handle_recieved_data sid data (shared h))
  | RequestImage sid data now =>
      handled h (handle_request_image sid data now (shared h))
  | Tick emit_raises now =>
      let t := tick emit_raises now (shared h) (counter h) in
      ({| shared := shared h; counter := next_counter t |}, tick_trace t)
  end.

(** A run: the events are handled one after the other. *)
Fixpoint run (h : hub) (es : list event) : hub * list effect :=
  match es with
  | [] => (h, [])
  | e :: es' =>
      let '(h1, tr1) := step h e in
      let '(h2, tr2) := run h1 es' in
      (h2, tr1 ++ tr2)
  end.

End Hub.

(** ** Observations on traces *)

(** Every call of [emit], whether it returned or raised:
    (room, event, payload). *)
Definition outbound (tr : list effect) : list (string * string * pyval) :=
  omap (λ e, match e with
             | Emit room ev p | EmitRaised room ev p => Some (room, ev, p)
             | _ => None
             end) tr.

(** The messages of event [ev] whose [emit] returned: (room, payload). *)
Definition delivered (ev : string) (tr : list effect) : list (string * pyval) :=
  omap (λ e, match e with
             | Emit room ev' p => if decide (ev' = ev) then Some (room, p) else None
             | _ => None
             end) tr.

(** The frames returned by the calls of [generate_test_image]. *)
Definition produced (tr : list effect) : list pyval :=
  omap (λ e, match e with Produce f => Some f | _ => None end) tr.

(** [n] calls of a handler in a row: the effects accumulate, and the
    first exception raised is kept. *)
Fixpoint calls (n : nat) (f : world -> reply) (w : world) : reply :=
  match n with
  | O => {| after := w; trace := []; raised := None |}
  | S m =>
      let r := calls m f w in
      let r' := f (after r) in
      {| after := after r';
         trace := trace r ++ trace r';
         raised := match raised r with Some e => Some e | None => raised r' end |}
  end.

(** [p[k]] on a payload. *)
Definition field (p : pyval) (k : string) : option pyval :=
  match p with
  | PDict d => dict_get d k
  | _ => None
  end.

Definition is_digit (c : ascii) : bool :=
  (48 <=? nat_of_ascii c)%nat && (nat_of_ascii c <=? 57)%nat.

Fixpoint keep_digits (s : string) : string :=
  match s with
  | EmptyString => EmptyString
  | String c r => if is_digit c then String c (keep_digits r) else keep_digits r
  end.

(** The number written in a frame name such as [test_frame_12] or
    [test_image_1700000000.png]: its decimal digits. *)
Definition embedded_number (name : string) : option N :=
  N.of_uint <$> NilZero.uint_of_string (keep_digits name).

(** The name a frame travels under: [frame_name] in a broadcast
    envelope, [img_name] in the reply to a direct request. *)
Definition frame_name_of (ev : string) (payload : pyval) : option string :=
  let named :=
    if decide (ev = "stream_frames") then
      field payload "data" ≫= λ d, field d "frame_name"
    else if decide (ev = "request_image") then
      field payload "image_data" ≫= λ d, field d "img_name"
    else None in
  named ≫= λ v, match v with PStr s => Some s | _ => None end.

(** The numbers of the frames delivered to [sid], in delivery order. *)
Definition frame_numbers (sid : string) (tr : list effect) : list N :=
  omap (λ e, match e with
             | Emit room ev p =>
                 if decide (room = sid)
                 then frame_name_of ev p ≫= embedded_number
                 else None
             | _ => None
             end) tr.

(** Every [Subscribe] of a run comes from an id that is in the registry
    when the event is handled. *)
Fixpoint subscribes_registered (png_base64 : string -> string)
    (h : hub) (es : list event) : bool :=
  match es with
  | [] => true
  | e :: es' =>
      match e with
      | Subscribe sid _ => dict_in sid (connected_clients (shared h))
      | _ => true
      end
      && subscribes_registered png_base64 (step png_base64 h e).1 es'
  end.

(** The payload is a dictionary whose [type] field is the string [ty]. *)
Definition payload_type_is (data : pyval) (ty : string) : bool :=
  match field data "type" with
  | Some (PStr s) => String.eqb s ty
  | _ => false
  end.

(** Every id of the registry has a subscription entry. *)
Definition registry_covered (w : world) : Prop :=
  ∀ sid, dict_in sid (connected_clients w) = true →
         dict_in sid (client_subscriptions w) = true.

(** The two dictionaries have the same ids. *)
Definition tables_agree (w : world) : Prop :=
  ∀ sid, dict_in sid (client_subscriptions w) = true
         ↔ dict_in sid (connected_clients w) = true.

(** The effects of the loop body of lines 161-162 for the ids [sids],
    one after the other, when every [emit] returns. *)
Definition sends (frame_name : string) (frame_data : pyval)
    (sids : list string) : list effect :=
  sids ≫= λ sid, [ Emit sid "stream_frames" frame_data;
                   Print (LogSentFrame frame_name sid) ].

(** The room of each call of [emit], in order. *)
Definition rooms (tr : list effect) : list string := (outbound tr).*1.*1.

(** The arguments of the [time.sleep] calls, in order. *)
Definition sleeps (tr : list effect) : list nat :=
  omap (λ e, match e with Sleep n => Some n | _ => None end) tr.

(** How many times line 164 printed its summary. *)
Definition broadcast_lines (tr : list effect) : nat :=
  length (omap (λ e, match e with
                     | Print (LogBroadcasted name n) => Some (name, n)
                     | _ => None
                     end) tr).

(** ** Fixtures for the closed examples *)

(** A stand-in for the imaging library in the examples: every property
    below holds whatever the library returns. *)
Definition fixture_png (text : string) : string := "iVBORw0KGgo=".

Definition noon : instant :=
  {| unix_seconds := 1700000000;
     clock_text := "12:00:00";
     iso_text := "2023-11-14T12:00:00" |}.

Definition one_past_noon : instant :=
  {| unix_seconds := 1700000060;
     clock_text := "12:01:00";
     iso_text := "2023-11-14T12:01:00" |}.

(** [socketio.emit] never raises. *)
Definition all_sends_ok (sid : string) : bool := false.

(** [socketio.emit] raises for the room [bad] and for no other. *)
Definition send_fails_for (bad : string) (sid : string) : bool :=
  String.eqb sid bad.

(** * Properties *)

(** ** Dictionaries *)

Section Dict.
Context {V : Type}.
Implicit Types (d : dict V) (k : string) (v : V).

Lemma dict_in_true k d : dict_in k d = true ↔ is_Some (dict_get d k).
Proof.
  unfold dict_in. by destruct (dict_get d k) as [v|]; split; intros H.
Qed.

Lemma dict_in_false k d : dict_in k d = false ↔ dict_get d k = None.
Proof. unfold dict_in. by destruct (dict_get d k). Qed.

Lemma dict_get_set_eq d k v : dict_get (dict_set d k v) k = Some v.
Proof.
  induction d as [|[k' v'] r IH]; simpl.
  - by rewrite decide_True.
  - destruct (decide (k = k')) as [->|Hne]; simpl.
    + by rewrite decide_True.
    + by rewrite decide_False.
Qed.

Lemma dict_get_set_ne d k k' v :
  k ≠ k' → dict_get (dict_set d k' v) k = dict_get d k.
Proof.
  intros Hne. induction d as [|[k0 v0] r IH]; simpl.
  - by rewrite decide_False.
  - destruct (decide (k' = k0)) as [->|Hne']; simpl.
    + by rewrite !decide_False.
    + destruct (decide (k = k0)); done.
Qed.

Lemma dict_get_del_eq d k : dict_get (dict_del d k) k = None.
Proof.
  induction d as [|[k' v'] r IH]; simpl; [done|].
  destruct (decide (k = k')) as [->|Hne]; simpl; [done|].
  by rewrite decide_False.
Qed.

Lemma dict_get_del_ne d k k' :
  k ≠ k' → dict_get (dict_del d k') k = dict_get d k.
Proof.
  intros Hne. induction d as [|[k0 v0] r IH]; simpl; [done|].
  destruct (decide (k' = k0)) as [->|Hne']; simpl.
  - by rewrite decide_False.
  - by destruct (decide (k = k0)).
Qed.

Lemma dict_get_None_keys d k : dict_get d k = None ↔ k ∉ dict_keys d.
Proof.
  unfold dict_keys. induction d as [|[k' v'] r IH]; simpl.
  - split; [intros _; apply not_elem_of_nil | done].
  - rewrite not_elem_of_cons. destruct (decide (k = k')) as [->|Hne].
    + split; [done | by intros [? _]].
    + rewrite IH. split; [by intros ? | by intros [_ ?]].
Qed.

Lemma dict_in_keys k d : dict_in k d = true ↔ k ∈ dict_keys d.
Proof.
  destruct (dict_get d k) as [v|] eqn:E.
  - split; [intros _|by rewrite dict_in_true, E].
    destruct (decide (k ∈ dict_keys d)) as [|Hn]; [done|].
    apply dict_get_None_keys in Hn. congruence.
  - split.
    + rewrite dict_in_true, E. by intros [? ?].
    + intros Hin. by apply dict_get_None_keys in E.
Qed.

Lemma dict_get_Some_elem d k v : dict_get d k = Some v → (k, v) ∈ d.
Proof.
  induction d as [|[k' v'] r IH]; simpl; [done|].
  destruct (decide (k = k')) as [->|Hne].
  - intros [= ->]. apply elem_of_cons; by left.
  - intros H. apply elem_of_cons; right; auto.
Qed.

Lemma dict_elem_get d k v : dict_wf d → (k, v) ∈ d → dict_get d k = Some v.
Proof.
  unfold dict_wf, dict_keys.
  induction d as [|[k' v'] r IH]; simpl; intros Hwf Hin.
  - by apply elem_of_nil in Hin.
  - apply NoDup_cons in Hwf as [Hk' Hwf].
    apply elem_of_cons in Hin as [[= <- <-]|Hin].
    + by rewrite decide_True.
    + destruct (decide (k = k')) as [->|Hne]; [|auto].
      exfalso. apply Hk'. apply list_elem_of_fmap. by exists (k', v).
Qed.

Lemma dict_keys_set_in d k v :
  dict_in k d = true → dict_keys (dict_set d k v) = dict_keys d.
Proof.
  unfold dict_in, dict_keys.
  induction d as [|[k' v'] r IH]; simpl; [done|].
  destruct (decide (k = k')) as [->|Hne]; simpl; [done|].
  intros H. f_equal. by apply IH.
Qed.

Lemma dict_keys_set_notin d k v :
  dict_in k d = false → dict_keys (dict_set d k v) = dict_keys d ++ [k].
Proof.
  unfold dict_in, dict_keys.
  induction d as [|[k' v'] r IH]; simpl; [done|].
  destruct (decide (k = k')) as [->|Hne]; simpl; [done|].
  intros H. f_equal. by apply IH.
Qed.

Lemma dict_keys_del d k : dict_keys (dict_del d k) = filter (λ x, k ≠ x) (dict_keys d).
Proof.
  unfold dict_keys.
  induction d as [|[k' v'] r IH]; simpl; [done|].
  destruct (decide (k = k')) as [->|Hne]; simpl.
  - rewrite filter_cons_False; [apply IH | by intros ?].
  - rewrite filter_cons_True by done. f_equal. apply IH.
Qed.

Lemma dict_wf_set d k v : dict_wf d → dict_wf (dict_set d k v).
Proof.
  unfold dict_wf. intros Hwf.
  destruct (dict_in k d) eqn:E.
  - by rewrite dict_keys_set_in.
  - rewrite dict_keys_set_notin by done.
    apply NoDup_app. split_and!; [done| |apply NoDup_singleton].
    intros x Hx Hx'. apply list_elem_of_singleton in Hx' as ->.
    apply dict_in_keys in Hx. congruence.
Qed.

Lemma dict_wf_del d k : dict_wf d → dict_wf (dict_del d k).
Proof. unfold dict_wf. rewrite dict_keys_del. apply NoDup_filter. Qed.

Lemma dict_del_absent d k : dict_in k d = false → dict_del d k = d.
Proof.
  unfold dict_in.
  induction d as [|[k' v'] r IH]; simpl; [done|].
  destruct (decide (k = k')) as [->|Hne]; [done|].
  intros H. by rewrite IH.
Qed.

Lemma dict_set_same d k v : dict_get d k = Some v → dict_set d k v = d.
Proof.
  induction d as [|[k' v'] r IH]; simpl; [done|].
  destruct (decide (k = k')) as [->|Hne].
  - by intros [= ->].
  - intros H. by rewrite IH.
Qed.

End Dict.

Section DictMembership.
Context {V : Type}.
Implicit Types (d : dict V) (k : string) (v : V).

Lemma dict_in_set k k' d v :
  dict_in k (dict_set d k' v) = true ↔ k = k' ∨ dict_in k d = true.
Proof.
  destruct (decide (k = k')) as [->|Hne].
  - rewrite dict_in_true, dict_get_set_eq. split; [by left | by eexists].
  - unfold dict_in. rewrite dict_get_set_ne by done.
    split; [by right | by intros [?|?]].
Qed.

Lemma dict_in_del k k' d :
  dict_in k (dict_del d k') = true ↔ k ≠ k' ∧ dict_in k d = true.
Proof.
  destruct (decide (k = k')) as [->|Hne].
  - unfold dict_in at 1. rewrite dict_get_del_eq. split; [done | by intros [? _]].
  - unfold dict_in. rewrite dict_get_del_ne by done. split; [done | by intros [_ ?]].
Qed.

(** The guarded deletion of [handle_disconnect]:
    [if k' in d: del d[k']]. *)
Lemma dict_in_discard k k' d :
  dict_in k (if dict_in k' d then dict_del d k' else d) = true
  ↔ k ≠ k' ∧ dict_in k d = true.
Proof.
  destruct (dict_in k' d) eqn:E; [apply dict_in_del|].
  split; [|by intros [_ ?]].
  intros H. split; [|done]. intros ->. congruence.
Qed.

Lemma dict_get_discard_ne k k' d :
  k ≠ k' → dict_get (if dict_in k' d then dict_del d k' else d) k = dict_get d k.
Proof. intros Hne. destruct (dict_in k' d); [by apply dict_get_del_ne | done]. Qed.

Lemma dict_wf_discard k d :
  dict_wf d → dict_wf (if dict_in k d then dict_del d k else d).
Proof. intros Hwf. destruct (dict_in k d); [by apply dict_wf_del | done]. Qed.

End DictMembership.

(** ** What each handler does to the two dictionaries *)

Lemma handle_subscribe_registry sid data w :
  connected_clients (after (handle_subscribe sid data w)) = connected_clients w.
Proof.
  unfold handle_subscribe.
  destruct (subscribe_topic data) as [e|topic]; [done|].
  by destruct (hash_key topic).
Qed.

(** After [handle_subscribe] the table has the entries it had, and
    possibly one for [sid]. *)
Lemma handle_subscribe_table_in sid data w k :
  dict_in k (client_subscriptions (after (handle_subscribe sid data w))) = true →
  k = sid ∨ dict_in k (client_subscriptions w) = true.
Proof.
  unfold handle_subscribe.
  destruct (subscribe_topic data) as [e|topic]; simpl; [by right|].
  destruct (hash_key topic) as [e|hk]; simpl.
  - destruct (dict_in sid (client_subscriptions w)) eqn:E; [by right|].
    by rewrite dict_in_set.
  - rewrite dict_in_set. intros [->|H]; [by left|].
    destruct (dict_in sid (client_subscriptions w)) eqn:E; [by right|].
    by apply dict_in_set in H.
Qed.

Lemma handle_subscribe_table_keeps sid data w k :
  dict_in k (client_subscriptions w) = true →
  dict_in k (client_subscriptions (after (handle_subscribe sid data w))) = true.
Proof.
  intros Hk. unfold handle_subscribe.
  destruct (subscribe_topic data) as [e|topic]; simpl; [done|].
  assert (dict_in k (if dict_in sid (client_subscriptions w)
                     then client_subscriptions w
                     else dict_set (client_subscriptions w) sid ∅) = true) as Hk'.
  { destruct (dict_in sid (client_subscriptions w)); [done|].
    apply dict_in_set. by right. }
  destruct (hash_key topic) as [e|hk]; simpl; [done|].
  apply dict_in_set. by right.
Qed.

Section Runs.
Variable png_base64 : string -> string.

#[local] Abbreviation step := (step png_base64).
#[local] Abbreviation run := (run png_base64).

Lemma step_shared_other h e :
  match e with
  | Connect _ _ _ | Disconnect _ | Subscribe _ _ => True
  | _ => shared (step h e).1 = shared h
  end.
Proof.
  destruct e as [| | |sid data|sid data|sid data now|]; simpl; try done.
  - unfold recieved_data. destruct (truthy data); [done|].
    by destruct (py_get data "data" PNone).
  - unfold handle_recieved_data. by destruct (truthy data).
  - unfold handle_request_image. destruct (truthy data); [|done].
    destruct (py_get data "type" PNone) as [|ty]; [done|].
    destruct (py_eq_str ty "request"); [done|].
    destruct (py_eq_str ty "feedback"); [|done].
    by destruct (py_get data "message" PNone).
Qed.

Lemma step_registry_covered h e :
  registry_covered (shared h) → registry_covered (shared (step h e).1).
Proof.
  intros Hinv. pose proof (step_shared_other h e) as Hoth.
  destruct e as [sid addr now|sid|sid data| | | |]; try (by rewrite Hoth).
  - intros k. simpl. rewrite !dict_in_set. intros [->|H]; [by left|].
    right. by apply Hinv.
  - intros k. simpl. rewrite !dict_in_discard. intros [Hne H].
    split; [done|]. by apply Hinv.
  - intros k. simpl. rewrite handle_subscribe_registry. intros H.
    apply handle_subscribe_table_keeps. by apply Hinv.
Qed.

Lemma step_tables_agree h e :
  match e with
  | Subscribe sid _ => dict_in sid (connected_clients (shared h)) = true
  | _ => True
  end →
  tables_agree (shared h) → tables_agree (shared (step h e).1).
Proof.
  intros Hguard Hinv. pose proof (step_shared_other h e) as Hoth.
  destruct e as [sid addr now|sid|sid data| | | |]; try (by rewrite Hoth).
  - intros k. simpl. rewrite !dict_in_set. by rewrite (Hinv k).
  - intros k. simpl. rewrite !dict_in_discard. by rewrite (Hinv k).
  - intros k. simpl. rewrite handle_subscribe_registry. split.
    + intros H. apply handle_subscribe_table_in in H as [->|H]; [done|].
      by apply Hinv.
    + intros H. apply handle_subscribe_table_keeps. by apply Hinv.
Qed.

Lemma run_registry_covered h es :
  registry_covered (shared h) → registry_covered (shared (run h es).1).
Proof.
  revert h. induction es as [|e es IH]; intros h Hinv; simpl; [done|].
  pose proof (step_registry_covered h e Hinv) as H1.
  destruct (step h e) as [h1 tr1]. specialize (IH h1 H1).
  by destruct (run h1 es) as [h2 tr2].
Qed.

Lemma run_tables_agree h es n :
  subscribes_registered png_base64 h es = true →
  tables_agree (shared h) → tables_agree (shared (run h (take n es)).1).
Proof.
  revert h n. induction es as [|e es IH]; intros h n Hg Hinv.
  - by rewrite take_nil.
  - destruct n as [|n]; [done|]. simpl in *.
    apply andb_prop in Hg as [Hg1 Hg2].
    assert (tables_agree (shared (step h e).1)) as H1.
    { apply step_tables_agree; [|done]. by destruct e. }
    destruct (step h e) as [h1 tr1]. specialize (IH h1 n Hg2 H1).
    by destruct (run h1 (take n es)) as [h2 tr2].
Qed.

End Runs.

(** ** C1: registry and subscription table *)

(** C1, as the code has it.  In every run from the start of the process
    and at every point of it, each id of the Connection Registry has a
    Subscription Table entry; and when every subscribe event of the run
    comes from an id registered at that time, the converse holds too, so
    the two dictionaries hold the same ids (created together on connect,
    destroyed together on disconnect). *)
Theorem registry_table_agreement
    (png_base64 : string -> string) (es : list event) (n : nat) (sid : string) :
  let w := shared (run png_base64 initial_hub (take n es)).1 in
  (dict_in sid (connected_clients w) = true →
   dict_in sid (client_subscriptions w) = true)
  ∧ (subscribes_registered png_base64 initial_hub es = true →
     dict_in sid (client_subscriptions w) = true →
     dict_in sid (connected_clients w) = true).
Proof.
  intros w. split.
  - apply (run_registry_covered png_base64 initial_hub (take n es)).
    by intros k.
  - intros Hg.
    apply (run_tables_agree png_base64 initial_hub es n Hg).
    by intros k.
Qed.

Lemma registry_table_agreement_witness :
  subscribes_registered fixture_png initial_hub
    [ Connect "a" (Some "10.0.0.7") noon; Subscribe "a" (PStr "stream_frames");
      Connect "b" None noon; Disconnect "a"; Tick all_sends_ok one_past_noon ] = true
  ∧ let w := shared (run fixture_png initial_hub
                 (take 3 [ Connect "a" (Some "10.0.0.7") noon;
                           Subscribe "a" (PStr "stream_frames");
                           Connect "b" None noon; Disconnect "a";
                           Tick all_sends_ok one_past_noon ])).1 in
    dict_in "a" (client_subscriptions w) = true
    ∧ (dict_in "a" (client_subscriptions w) = true →
       dict_in "a" (connected_clients w) = true).
Proof.
  split; [reflexivity|].
  intros w. split; [reflexivity|].
  apply (registry_table_agreement fixture_png
           [ Connect "a" (Some "10.0.0.7") noon; Subscribe "a" (PStr "stream_frames");
             Connect "b" None noon; Disconnect "a"; Tick all_sends_ok one_past_noon ]
           3 "a").
  reflexivity.
Defined.

(** C1 as stated fails: a subscribe from an id that never connected
    creates a Subscription Table entry with no Registry entry. *)
Lemma subscribe_unregistered_leaves_orphan :
  ¬ (∀ (es : list event) (sid : string),
       let w := shared (run fixture_png initial_hub es).1 in
       dict_in sid (client_subscriptions w) = true
       ↔ dict_in sid (connected_clients w) = true).
Proof.
  intros H.
  destruct (H [ Subscribe "ghost" (PStr "stream_frames") ] "ghost") as [H1 _].
  specialize (H1 eq_refl). discriminate H1.
Qed.

(** ** C10: handlers touch only the entries of their own connection *)

(** C10.  For distinct ids [a] and [b], handling a subscribe from [a]
    and handling a disconnect of [a] leave [b]'s Registry entry and
    [b]'s subscription set as they were, whatever the payload. *)
Theorem handlers_leave_others (a b : string) (data : pyval) (w : world) :
  a ≠ b →
  (dict_get (connected_clients (after (handle_subscribe a data w))) b
     = dict_get (connected_clients w) b
   ∧ dict_get (client_subscriptions (after (handle_subscribe a data w))) b
     = dict_get (client_subscriptions w) b)
  ∧ (dict_get (connected_clients (after (handle_disconnect a w))) b
       = dict_get (connected_clients w) b
     ∧ dict_get (client_subscriptions (after (handle_disconnect a w))) b
       = dict_get (client_subscriptions w) b).
Proof.
  intros Hne. assert (b ≠ a) as Hne' by done. split; split.
  - by rewrite handle_subscribe_registry.
  - unfold handle_subscribe.
    destruct (subscribe_topic data) as [e|topic]; simpl; [done|].
    assert (dict_get (if dict_in a (client_subscriptions w)
                      then client_subscriptions w
                      else dict_set (client_subscriptions w) a ∅) b
            = dict_get (client_subscriptions w) b) as Hsame.
    { destruct (dict_in a (client_subscriptions w)); [done|].
      by apply dict_get_set_ne. }
    destruct (hash_key topic) as [e|k]; simpl; [done|].
    by rewrite dict_get_set_ne.
  - simpl. by apply dict_get_discard_ne.
  - simpl. by apply dict_get_discard_ne.
Qed.

Lemma handlers_leave_others_witness :
  let w := shared (run fixture_png initial_hub
                     [ Connect "a" None noon; Connect "b" (Some "10.0.0.8") noon;
                       Subscribe "b" (PStr "stream_frames") ]).1 in
  dict_get (client_subscriptions
              (after (handle_subscribe "a" (PDict [("topic", PStr "news")]) w))) "b"
    = dict_get (client_subscriptions w) "b"
  ∧ dict_get (connected_clients (after (handle_disconnect "a" w))) "b"
    = dict_get (connected_clients w) "b".
Proof.
  intros w.
  destruct (handlers_leave_others "a" "b" (PDict [("topic", PStr "news")]) w)
    as [[_ H1] [H2 _]]; [discriminate|].
  exact (conj H1 H2).
Defined.

(** ** C9: disconnect of an id that is not registered *)

(** C9, as the code has it.  For an id absent from the Registry,
    [handle_disconnect] raises nothing and leaves the Registry as it
    was; it leaves the Subscription Table as it was too when the id has
    no entry there, and otherwise removes that entry and no other. *)
Theorem disconnect_unregistered (sid : string) (w : world) :
  dict_in sid (connected_clients w) = false →
  let r := handle_disconnect sid w in
  raised r = None
  ∧ connected_clients (after r) = connected_clients w
  ∧ (dict_in sid (client_subscriptions w) = false → after r = w)
  ∧ dict_in sid (client_subscriptions (after r)) = false
  ∧ (∀ other, other ≠ sid →
       dict_get (client_subscriptions (after r)) other
       = dict_get (client_subscriptions w) other).
Proof.
  intros Hreg r. subst r. unfold handle_disconnect. simpl. rewrite Hreg.
  split_and!; try done.
  - intros Hsub. rewrite Hsub. by destruct w.
  - apply not_true_is_false. rewrite dict_in_discard. by intros [? _].
  - intros other Hne. by apply dict_get_discard_ne.
Qed.

Lemma disconnect_unregistered_witness :
  let w := shared (run fixture_png initial_hub
                     [ Connect "a" None noon; Subscribe "a" (PStr "stream_frames") ]).1 in
  dict_in "b" (connected_clients w) = false
  ∧ after (handle_disconnect "b" w) = w
  ∧ raised (handle_disconnect "b" w) = None.
Proof.
  intros w.
  destruct (disconnect_unregistered "b" w) as (Hr & _ & Hsame & _);
    [reflexivity|].
  split; [reflexivity|]. split; [|exact Hr].
  apply Hsame. reflexivity.
Defined.

(** C9 as stated fails: an id that subscribed without being registered
    is absent from the Registry, and its disconnect removes its entry
    from the Subscription Table. *)
Lemma disconnect_unregistered_clears_orphan :
  let w := after (handle_subscribe "ghost" (PStr "stream_frames") initial_world) in
  dict_in "ghost" (connected_clients w) = false
  ∧ dict_in "ghost" (client_subscriptions w) = true
  ∧ client_subscriptions (after (handle_disconnect "ghost" w)) = []
  ∧ after (handle_disconnect "ghost" w) ≠ w.
Proof.
  intros w. split_and!; try reflexivity.
  intros H. apply (f_equal (λ x, length (client_subscriptions x))) in H.
  vm_compute in H. discriminate H.
Qed.

(** ** C3: a second connect with the same id *)

(** C3, as the code has it.  [handle_connect] has no duplicate check:
    for an id already in the Registry it raises nothing, keeps the
    Registry's ids, overwrites the Connection record with the new
    connect time and origin address, resets the id's subscription set
    to the empty set, and sends the welcome message. *)
Theorem connect_again_overwrites
    (sid : string) (addr : option string) (now : instant) (w : world) :
  dict_in sid (connected_clients w) = true →
  let r := handle_connect sid addr now w in
  raised r = None
  ∧ dict_keys (connected_clients (after r)) = dict_keys (connected_clients w)
  ∧ dict_get (connected_clients (after r)) sid
    = Some {| connected_at := now; ip := addr |}
  ∧ dict_get (client_subscriptions (after r)) sid = Some ∅
  ∧ outbound (trace r)
    = [ (sid, "welcome",
         PDict [ ("message", PStr "Connected to Socket.IO server");
                 ("server_time", PStr (iso_text now));
                 ("client_id", PStr sid) ]) ].
Proof.
  intros Hin r. subst r. simpl. split_and!; try done.
  - by apply dict_keys_set_in.
  - apply dict_get_set_eq.
  - apply dict_get_set_eq.
Qed.

Lemma connect_again_overwrites_witness :
  let w := shared (run fixture_png initial_hub
                     [ Connect "a" (Some "10.0.0.7") noon;
                       Subscribe "a" (PStr "stream_frames") ]).1 in
  dict_in "a" (connected_clients w) = true
  ∧ dict_get (connected_clients (after (handle_connect "a" None one_past_noon w))) "a"
    = Some {| connected_at := one_past_noon; ip := None |}
  ∧ dict_get (client_subscriptions (after (handle_connect "a" None one_past_noon w))) "a"
    = Some ∅.
Proof.
  intros w.
  destruct (connect_again_overwrites "a" None one_past_noon w)
    as (_ & _ & Hrec & Hsub & _); [reflexivity|].
  split; [reflexivity|]. exact (conj Hrec Hsub).
Defined.

(** C3 as stated fails: the second connect of a registered id is
    accepted, and both the Connection record and the subscription set of
    the id change. *)
Lemma connect_again_not_rejected :
  let w := shared (run fixture_png initial_hub
                     [ Connect "a" (Some "10.0.0.7") noon;
                       Subscribe "a" (PStr "stream_frames") ]).1 in
  let r := handle_connect "a" (Some "10.0.0.7") one_past_noon w in
  dict_in "a" (connected_clients w) = true
  ∧ raised r = None
  ∧ dict_get (connected_clients (after r)) "a" ≠ dict_get (connected_clients w) "a"
  ∧ dict_get (client_subscriptions (after r)) "a"
    ≠ dict_get (client_subscriptions w) "a".
Proof.
  intros w r. split_and!; try reflexivity.
  - intros H. vm_compute in H. discriminate H.
  - intros H.
    assert (dict_get (client_subscriptions (after r)) "a" = Some ∅) as H0
      by reflexivity.
    assert (dict_get (client_subscriptions w) "a" = Some {[ KStr "stream_frames" ]})
      as H1 by reflexivity.
    rewrite H0, H1 in H. injection H as H. set_solver.
Qed.

(** ** C8: the direct image request *)

(** C8.  [handle_request_image] never changes the two dictionaries.
    When the payload has a [type] field equal to ["request"], it calls
    [emit] exactly once: a [request_image] message to the requesting
    connection, with [type] ["response"] and the image data, of width
    400 and height 300.  For any other payload (feedback, empty,
    unrecognized) it calls [emit] not at all. *)
Theorem request_image_reply
    (png_base64 : string -> string)
    (sid : string) (data : pyval) (now : instant) (w : world) :
  let r := handle_request_image png_base64 sid data now w in
  after r = w
  ∧ outbound (trace r)
    = if payload_type_is data "request" then
        [ (sid, "request_image",
           PDict [ ("type", PStr "response");
                   ("image_data",
                    PDict [ ("img_name",
                             PStr ("test_image_" +:+ str_of_Z (unix_seconds now)
                                   +:+ ".png"));
                            ("base_64_img", PStr (png_base64 (image_text now)));
                            ("timestamp", PStr (iso_text now));
                            ("width", PInt 400);
                            ("height", PInt 300) ]) ]) ]
      else [].
Proof.
  intros r. subst r. unfold handle_request_image, payload_type_is.
  destruct data as [|b|z|s|l|d]; simpl.
  - done.
  - by destruct b.
  - by destruct (negb (z =? 0)%Z).
  - by destruct (negb (String.eqb s "")).
  - by destruct l.
  - destruct d as [|entry d']; [done|].
    set (fields := entry :: d').
    destruct (dict_get fields "type") as [ty|]; simpl; [|done].
    destruct ty as [|b|z|s|l|d'']; simpl; try done.
    destruct (String.eqb s "request"); [done|].
    destruct (String.eqb s "feedback"); done.
Qed.

(** ** C6: a tick with an empty registry *)

(** C6.  A tick that starts with an empty Connection Registry calls the
    image generator zero times and calls [emit] zero times, whatever the
    Subscription Table holds; the counter stays as it was. *)
Theorem idle_tick_skips_production
    (png_base64 : string -> string)
    (emit_raises : string -> bool) (now : instant) (w : world) (i : N) :
  connected_clients w = [] →
  let t := tick png_base64 emit_raises now w i in
  produced (tick_trace t) = []
  ∧ outbound (tick_trace t) = []
  ∧ next_counter t = i
  ∧ caught t = None.
Proof. intros Hempty t. subst t. unfold tick. by rewrite Hempty. Qed.

Lemma idle_tick_skips_production_witness :
  let w := after (handle_subscribe "ghost" (PStr "stream_frames") initial_world) in
  connected_clients w = []
  ∧ members_of (KStr stream_frames) (client_subscriptions w) = [ "ghost" ]
  ∧ produced (tick_trace (tick fixture_png all_sends_ok noon w 5)) = []
  ∧ outbound (tick_trace (tick fixture_png all_sends_ok noon w 5)) = [].
Proof.
  intros w.
  destruct (idle_tick_skips_production fixture_png all_sends_ok noon w 5)
    as (Hp & Ho & _); [reflexivity|].
  split; [reflexivity|]. split; [reflexivity|]. exact (conj Hp Ho).
Defined.

(** ** The dictionaries of a run are well formed *)

Lemma handle_subscribe_wf sid data w :
  dict_wf (client_subscriptions w) →
  dict_wf (client_subscriptions (after (handle_subscribe sid data w))).
Proof.
  intros Hwf. unfold handle_subscribe.
  destruct (subscribe_topic data) as [e|topic]; simpl; [done|].
  assert (dict_wf (if dict_in sid (client_subscriptions w)
                   then client_subscriptions w
                   else dict_set (client_subscriptions w) sid ∅)) as Hwf'.
  { destruct (dict_in sid (client_subscriptions w)); [done|]. by apply dict_wf_set. }
  destruct (hash_key topic) as [e|k]; simpl; [done|]. by apply dict_wf_set.
Qed.

Lemma step_wf png_base64 h e :
  dict_wf (connected_clients (shared h)) ∧ dict_wf (client_subscriptions (shared h)) →
  dict_wf (connected_clients (shared (step png_base64 h e).1))
  ∧ dict_wf (client_subscriptions (shared (step png_base64 h e).1)).
Proof.
  intros [Hc Hs]. pose proof (step_shared_other png_base64 h e) as Hoth.
  destruct e as [sid addr now|sid|sid data| | | |]; try (by rewrite Hoth).
  - simpl. split; by apply dict_wf_set.
  - simpl. split; by apply dict_wf_discard.
  - simpl. rewrite handle_subscribe_registry. split; [done|].
    by apply handle_subscribe_wf.
Qed.

(** Every state a run reaches from the start of the process has
    well-formed dictionaries. *)
Lemma run_wf png_base64 es :
  let w := shared (run png_base64 initial_hub es).1 in
  dict_wf (connected_clients w) ∧ dict_wf (client_subscriptions w).
Proof.
  assert (∀ h, dict_wf (connected_clients (shared h))
               ∧ dict_wf (client_subscriptions (shared h)) →
               dict_wf (connected_clients (shared (run png_base64 h es).1))
               ∧ dict_wf (client_subscriptions (shared (run png_base64 h es).1)))
    as Hgen.
  { induction es as [|e es IH]; intros h Hwf; simpl; [done|].
    pose proof (step_wf png_base64 h e Hwf) as H1.
    destruct (step png_base64 h e) as [h1 tr1]. specialize (IH h1 H1).
    by destruct (run png_base64 h1 es) as [h2 tr2]. }
  apply Hgen. split; apply NoDup_nil_2.
Qed.

(** ** C5: subscribing again *)

Lemma dict_set_set {V} (d : dict V) (k : string) (v v' : V) :
  dict_set (dict_set d k v) k v' = dict_set d k v'.
Proof.
  induction d as [|[k0 v0] r IH]; simpl.
  - by rewrite decide_True.
  - destruct (decide (k = k0)) as [->|Hne]; simpl.
    + by rewrite decide_True.
    + rewrite decide_False by done. f_equal. apply IH.
Qed.

(** [handle_subscribe] on a payload that names a string topic. *)
Lemma handle_subscribe_string sid data topic w :
  subscribe_topic data = inr (PStr topic) →
  handle_subscribe sid data w
  = {| after :=
         {| connected_clients := connected_clients w;
            client_subscriptions :=
              dict_set (client_subscriptions w) sid
                (default ∅ (dict_get (client_subscriptions w) sid)
                 ∪ {[ KStr topic ]}) |};
       trace :=
         [ Print (LogSubscribed sid (PStr topic));
           Emit sid "subscription_confirmed"
             (PDict [ ("topic", PStr topic); ("status", PStr "subscribed") ]) ];
       raised := None |}.
Proof.
  intros Htopic. unfold handle_subscribe. rewrite Htopic. simpl.
  destruct (dict_in sid (client_subscriptions w)) eqn:E; [done|].
  apply dict_in_false in E. rewrite dict_get_set_eq, E. simpl.
  by rewrite dict_set_set.
Qed.

Lemma handle_subscribe_again sid data topic w :
  subscribe_topic data = inr (PStr topic) →
  after (handle_subscribe sid data (after (handle_subscribe sid data w)))
  = after (handle_subscribe sid data w).
Proof.
  intros Htopic. rewrite !(handle_subscribe_string _ _ _ _ Htopic). simpl.
  rewrite dict_get_set_eq, dict_set_set. simpl. do 2 f_equal.
  by rewrite <- (assoc_L (∪)), (idemp_L (∪)).
Qed.

Lemma members_of_cons k sid (s : gset hkey) (d : dict (gset hkey)) :
  members_of k ((sid, s) :: d)
  = if decide (k ∈ s) then sid :: members_of k d else members_of k d.
Proof.
  unfold members_of. rewrite filter_cons. simpl.
  by destruct (decide (k ∈ s)).
Qed.

Lemma members_of_keys k (d : dict (gset hkey)) sid :
  sid ∈ members_of k d → sid ∈ dict_keys d.
Proof.
  unfold members_of, dict_keys. rewrite !list_elem_of_fmap.
  intros [entry [-> Hin]]. exists entry. split; [done|].
  by apply list_elem_of_filter in Hin as [_ ?].
Qed.

Lemma members_of_elem k (d : dict (gset hkey)) sid :
  sid ∈ members_of k d ↔ ∃ s, (sid, s) ∈ d ∧ k ∈ s.
Proof.
  unfold members_of. rewrite list_elem_of_fmap. split.
  - intros [[sid' s] [-> Hin]]. apply list_elem_of_filter in Hin as [Hk Hin].
    by exists s.
  - intros [s [Hin Hk]]. exists (sid, s). split; [done|].
    by apply list_elem_of_filter.
Qed.

(** In a well-formed table a subscriber of the topic is listed once. *)
Lemma members_of_count k (d : dict (gset hkey)) sid s :
  dict_wf d → dict_get d sid = Some s → k ∈ s →
  count_occ String.string_dec (members_of k d) sid = 1.
Proof.
  unfold dict_wf. induction d as [|[k0 s0] r IH]; simpl; [done|].
  intros Hwf Hget Hk. apply NoDup_cons in Hwf as [Hk0 Hwf].
  rewrite members_of_cons.
  destruct (decide (sid = k0)) as [->|Hne].
  - injection Hget as ->. rewrite decide_True by done. simpl.
    destruct (String.string_dec k0 k0) as [_|Hbad]; [|done]. f_equal.
    apply count_occ_not_In. rewrite <- list_elem_of_In.
    intros Hin. by apply members_of_keys in Hin.
  - destruct (decide (k ∈ s0)); simpl.
    + destruct (String.string_dec k0 sid) as [->|_]; [done|]. by apply IH.
    + by apply IH.
Qed.

Lemma members_of_NoDup k (d : dict (gset hkey)) :
  dict_wf d → NoDup (members_of k d).
Proof.
  unfold dict_wf. induction d as [|[k0 s0] r IH]; simpl; intros Hwf.
  - apply NoDup_nil_2.
  - apply NoDup_cons in Hwf as [Hk0 Hwf]. rewrite members_of_cons.
    destruct (decide (k ∈ s0)); [|by apply IH].
    apply NoDup_cons. split; [|by apply IH].
    intros Hin. by apply members_of_keys in Hin.
Qed.

Lemma delivered_app ev (tr1 tr2 : list effect) :
  delivered ev (tr1 ++ tr2) = delivered ev tr1 ++ delivered ev tr2.
Proof. apply omap_app. Qed.

(** C5.  For a payload that names the string [topic], [n >= 1] calls of
    [handle_subscribe] in a row leave the two dictionaries exactly as
    one call does; the id is listed once among the members of the topic;
    no call raises; and each of the [n] calls sends the confirmation. *)
Theorem subscribe_idempotent
    (sid : string) (data : pyval) (topic : string) (w : world) (n : nat) :
  dict_wf (client_subscriptions w) →
  subscribe_topic data = inr (PStr topic) →
  (1 ≤ n)%nat →
  let r := calls n (handle_subscribe sid data) w in
  after r = after (handle_subscribe sid data w)
  ∧ count_occ String.string_dec
      (members_of (KStr topic) (client_subscriptions (after r))) sid = 1
  ∧ raised r = None
  ∧ delivered "subscription_confirmed" (trace r)
    = replicate n
        (sid, PDict [ ("topic", PStr topic); ("status", PStr "subscribed") ]).
Proof.
  intros Hwf Htopic Hn r. subst r.
  assert (∀ m, after (calls (S m) (handle_subscribe sid data) w)
               = after (handle_subscribe sid data w)) as Hafter.
  { induction m as [|m IH]; [done|].
    change (after (calls (S (S m)) (handle_subscribe sid data) w))
      with (after (handle_subscribe sid data
                     (after (calls (S m) (handle_subscribe sid data) w)))).
    rewrite IH. by apply handle_subscribe_again with topic. }
  assert (∀ m, raised (calls m (handle_subscribe sid data) w) = None
               ∧ delivered "subscription_confirmed"
                   (trace (calls m (handle_subscribe sid data) w))
                 = replicate m
                     (sid, PDict [ ("topic", PStr topic);
                                   ("status", PStr "subscribed") ])) as Hcalls.
  { induction m as [|m [IHr IHt]]; [done|]. simpl.
    rewrite IHr, delivered_app, IHt.
    rewrite (handle_subscribe_string _ _ _ _ Htopic). simpl. split; [done|].
    change (?x :: replicate m ?x) with (replicate (S m) x).
    by rewrite <- replicate_S_end. }
  destruct n as [|m]; [lia|].
  rewrite Hafter. destruct (Hcalls (S m)) as [Hr Ht].
  split_and!; [done| |done|done].
  rewrite (handle_subscribe_string _ _ _ _ Htopic). simpl.
  apply members_of_count
    with (default ∅ (dict_get (client_subscriptions w) sid) ∪ {[ KStr topic ]}).
  - by apply dict_wf_set.
  - apply dict_get_set_eq.
  - apply elem_of_union. right. by apply elem_of_singleton.
Qed.

Lemma subscribe_idempotent_witness :
  let w := shared (run fixture_png initial_hub
                     [ Connect "a" None noon; Connect "b" None noon;
                       Subscribe "b" (PStr "stream_frames") ]).1 in
  let data := PDict [ ("topic", PStr "stream_frames") ] in
  dict_wf (client_subscriptions w)
  ∧ subscribe_topic data = inr (PStr "stream_frames")
  ∧ after (calls 3 (handle_subscribe "a" data) w) = after (handle_subscribe "a" data w)
  ∧ members_of (KStr "stream_frames")
      (client_subscriptions (after (calls 3 (handle_subscribe "a" data) w)))
    = [ "a"; "b" ]
  ∧ length (delivered "subscription_confirmed"
              (trace (calls 3 (handle_subscribe "a" data) w))) = 3.
Proof.
  intros w data.
  assert (dict_wf (client_subscriptions w)) as Hwf.
  { unfold dict_wf. apply (bool_decide_unpack _). vm_compute. exact I. }
  destruct (subscribe_idempotent "a" data "stream_frames" w 3 Hwf eq_refl)
    as (Hafter & _ & _ & Hsent); [lia|].
  split; [exact Hwf|]. split; [reflexivity|]. split; [exact Hafter|].
  split; [reflexivity|]. by rewrite Hsent.
Defined.

(** ** The fan-out loop *)

Lemma outbound_app (tr1 tr2 : list effect) :
  outbound (tr1 ++ tr2) = outbound tr1 ++ outbound tr2.
Proof. apply omap_app. Qed.

Lemma outbound_sends name fd sids :
  outbound (sends name fd sids) = (λ sid, (sid, "stream_frames", fd)) <$> sids.
Proof.
  induction sids as [|sid sids IH]; [done|].
  change (sends name fd (sid :: sids))
    with ([ Emit sid "stream_frames" fd; Print (LogSentFrame name sid) ]
          ++ sends name fd sids).
  rewrite outbound_app, IH. done.
Qed.

Lemma delivered_sends name fd sids :
  delivered "stream_frames" (sends name fd sids) = (λ sid, (sid, fd)) <$> sids.
Proof.
  induction sids as [|sid sids IH]; [done|].
  change (sends name fd (sid :: sids))
    with ([ Emit sid "stream_frames" fd; Print (LogSentFrame name sid) ]
          ++ sends name fd sids).
  rewrite delivered_app, IH. done.
Qed.

Section FanOut.
Variable emit_raises : string -> bool.
Variables (name : string) (fd : pyval).

#[local] Abbreviation topic := (KStr stream_frames).

(** When no send raises, the loop sends to every member, in order. *)
Lemma fan_out_ok (items : dict (gset hkey)) :
  (∀ sid, sid ∈ members_of topic items → emit_raises sid = false) →
  fan_out emit_raises name fd items = (sends name fd (members_of topic items), None).
Proof.
  induction items as [|[sid s] r IH]; intros Hok; [done|].
  simpl. rewrite members_of_cons in Hok |- *.
  destruct (decide (topic ∈ s)) as [Hin|Hout].
  - rewrite (Hok sid) by (apply elem_of_cons; by left).
    rewrite IH; [done|]. intros k Hk. apply Hok. apply elem_of_cons. by right.
  - by apply IH.
Qed.

(** When the send to [x] is the first to raise, the loop has sent to the
    members before [x], and stops there. *)
Lemma fan_out_raises (items : dict (gset hkey)) (before : list string)
    (x : string) (rest : list string) :
  members_of topic items = before ++ x :: rest →
  (∀ sid, sid ∈ before → emit_raises sid = false) →
  emit_raises x = true →
  fan_out emit_raises name fd items
  = (sends name fd before ++ [ EmitRaised x "stream_frames" fd ], Some SendError).
Proof.
  revert before. induction items as [|[sid s] r IH]; intros before Hmem Hok Hx.
  - by destruct before.
  - simpl. rewrite members_of_cons in Hmem.
    destruct (decide (topic ∈ s)) as [Hin|Hout]; [|by apply IH].
    destruct before as [|b before']; simpl in Hmem.
    + injection Hmem as -> Hmem. by rewrite Hx.
    + injection Hmem as -> Hmem.
      rewrite (Hok b) by (apply elem_of_cons; by left).
      rewrite (IH before' Hmem); [done| |done].
      intros k Hk. apply Hok. apply elem_of_cons. by right.
Qed.

(** Whatever the sends do, the loop calls [emit] only for members, and
    only with the envelope. *)
Lemma fan_out_outbound (items : dict (gset hkey)) room ev p :
  (room, ev, p) ∈ outbound (fan_out emit_raises name fd items).1 →
  room ∈ members_of topic items ∧ ev = "stream_frames" ∧ p = fd.
Proof.
  induction items as [|[sid s] r IH]; simpl.
  - intros H. by apply elem_of_nil in H.
  - rewrite members_of_cons.
    destruct (decide (topic ∈ s)) as [Hin|Hout]; [|apply IH].
    destruct (emit_raises sid).
    + simpl. intros H. apply list_elem_of_singleton in H as [= -> -> ->].
      split; [|done]. apply elem_of_cons. by left.
    + destruct (fan_out emit_raises name fd r) as [tr res]. simpl in *.
      intros H. apply elem_of_cons in H as [[= -> -> ->]|H].
      * split; [|done]. apply elem_of_cons. by left.
      * destruct (IH H) as (? & ? & ?). split; [|done]. apply elem_of_cons. by right.
Qed.

(** The loop never calls the image generator. *)
Lemma fan_out_produced (items : dict (gset hkey)) :
  produced (fan_out emit_raises name fd items).1 = [].
Proof.
  induction items as [|[sid s] r IH]; simpl; [done|].
  destruct (decide (topic ∈ s)) as [Hin|Hout]; [|apply IH].
  destruct (emit_raises sid); [done|].
  by destruct (fan_out emit_raises name fd r) as [tr res].
Qed.

End FanOut.

(** ** The scheduler tick *)

Section Tick.
Variable png_base64 : string -> string.

#[local] Abbreviation frame_payload now i :=
  (PDict [ ("title", PStr "send_frames");
           ("data",
            PDict [ ("frame_name", PStr ("test_frame_" +:+ str_of_N i));
                    ("frame_data", PStr (png_base64 (image_text now))) ]) ]).

(** A tick whose sends all return. *)
Lemma tick_completes emit_raises now w i :
  connected_clients w ≠ [] →
  (∀ sid, sid ∈ members_of (KStr stream_frames) (client_subscriptions w) →
          emit_raises sid = false) →
  tick png_base64 emit_raises now w i
  = {| next_counter := i + 1;
       tick_trace :=
         Produce (generate_test_image png_base64 now)
         :: sends ("test_frame_" +:+ str_of_N i) (frame_payload now i)
              (members_of (KStr stream_frames) (client_subscriptions w))
         ++ [ Print (LogBroadcasted ("test_frame_" +:+ str_of_N i)
                       (length (members_of (KStr stream_frames)
                                           (client_subscriptions w))));
              Sleep 1 ];
       caught := None |}.
Proof.
  intros Hreg Hok. unfold tick.
  destruct (connected_clients w) as [|c cs]; [done|].
  by rewrite fan_out_ok.
Qed.

(** A tick in which the send to [x] is the first to raise. *)
Lemma tick_aborts emit_raises now w i before x rest :
  connected_clients w ≠ [] →
  members_of (KStr stream_frames) (client_subscriptions w) = before ++ x :: rest →
  (∀ sid, sid ∈ before → emit_raises sid = false) →
  emit_raises x = true →
  tick png_base64 emit_raises now w i
  = {| next_counter := i;
       tick_trace :=
         Produce (generate_test_image png_base64 now)
         :: (sends ("test_frame_" +:+ str_of_N i) (frame_payload now i) before
             ++ [ EmitRaised x "stream_frames" (frame_payload now i) ])
         ++ [ Print (LogLoopError SendError); Sleep 1 ];
       caught := Some SendError |}.
Proof.
  intros Hreg Hmem Hok Hx. unfold tick.
  destruct (connected_clients w) as [|c cs]; [done|].
  by rewrite (fan_out_raises _ _ _ _ before x rest).
Qed.

(** Every call of [emit] in a tick is a [stream_frames] envelope for a
    member of the topic. *)
Lemma tick_outbound emit_raises now w i room ev p :
  (room, ev, p) ∈ outbound (tick_trace (tick png_base64 emit_raises now w i)) →
  room ∈ members_of (KStr stream_frames) (client_subscriptions w)
  ∧ ev = "stream_frames" ∧ p = frame_payload now i.
Proof.
  unfold tick. destruct (connected_clients w) as [|c cs].
  { intros H. by apply elem_of_nil in H. }
  pose proof (fan_out_outbound emit_raises ("test_frame_" +:+ str_of_N i)
                (frame_payload now i) (client_subscriptions w) room ev p) as Hfan.
  change (envelope ("test_frame_" +:+ str_of_N i) (generate_test_image png_base64 now))
    with (frame_payload now i).
  destruct (fan_out emit_raises ("test_frame_" +:+ str_of_N i)
              (frame_payload now i) (client_subscriptions w)) as [sent [e|]];
    simpl in *; rewrite outbound_app, app_nil_r; apply Hfan.
Qed.

End Tick.

(** ** C7: who receives the broadcast *)

(** C7, as the code has it.  In a tick that produces a Frame, every call
    of [emit] is a [stream_frames] event with the payload
    [{title: "send_frames", data: {frame_name, frame_data}}] and goes to
    a connection whose subscription set contains ['stream_frames'],
    never to one that subscribed to other topics only; and when no send
    of the tick raises, there is exactly one such call for each of these
    connections, in the order of the table. *)
Theorem broadcast_reaches_subscribers
    (png_base64 : string -> string)
    (emit_raises : string -> bool) (now : instant) (w : world) (i : N) :
  connected_clients w ≠ [] →
  let t := tick png_base64 emit_raises now w i in
  let payload :=
    PDict [ ("title", PStr "send_frames");
            ("data",
             PDict [ ("frame_name", PStr ("test_frame_" +:+ str_of_N i));
                     ("frame_data", PStr (png_base64 (image_text now))) ]) ] in
  produced (tick_trace t) = [ generate_test_image png_base64 now ]
  ∧ (∀ room ev p,
       (room, ev, p) ∈ outbound (tick_trace t) →
       ev = "stream_frames" ∧ p = payload
       ∧ ∃ subscriptions,
           (room, subscriptions) ∈ client_subscriptions w
           ∧ KStr "stream_frames" ∈ subscriptions)
  ∧ ((∀ sid, sid ∈ members_of (KStr stream_frames) (client_subscriptions w) →
             emit_raises sid = false) →
     delivered "stream_frames" (tick_trace t)
     = (λ sid, (sid, payload))
         <$> members_of (KStr stream_frames) (client_subscriptions w)
     ∧ (∀ sid, sid ∈ members_of (KStr stream_frames) (client_subscriptions w)
               ↔ ∃ subscriptions,
                   (sid, subscriptions) ∈ client_subscriptions w
                   ∧ KStr "stream_frames" ∈ subscriptions)
     ∧ (dict_wf (client_subscriptions w) →
        NoDup (members_of (KStr stream_frames) (client_subscriptions w)))).
Proof.
  intros Hreg t payload. subst t. split_and!.
  - unfold tick. destruct (connected_clients w) as [|c cs]; [done|].
    pose proof (fan_out_produced emit_raises ("test_frame_" +:+ str_of_N i)
                  (envelope ("test_frame_" +:+ str_of_N i)
                            (generate_test_image png_base64 now))
                  (client_subscriptions w)) as Hfan.
    destruct (fan_out emit_raises _ _ (client_subscriptions w)) as [sent [e|]];
      simpl in *; unfold produced in *; simpl; by rewrite omap_app, Hfan.
  - intros room ev p H.
    apply tick_outbound in H as (Hmem & -> & ->).
    split; [done|]. split; [done|]. by apply members_of_elem.
  - intros Hok.
    split; [|split; [intros sid; apply members_of_elem|apply members_of_NoDup]].
    rewrite tick_completes by done. simpl.
    rewrite delivered_app, delivered_sends. simpl. by rewrite app_nil_r.
Qed.

Lemma broadcast_reaches_subscribers_witness :
  let w := shared (run fixture_png initial_hub
                     [ Connect "a" None noon; Subscribe "a" (PStr "news");
                       Connect "b" None noon; Subscribe "b" (PStr "stream_frames");
                       Connect "c" None noon;
                       Subscribe "c" (PDict [ ("topic", PStr "stream_frames") ]) ]).1 in
  let payload :=
    PDict [ ("title", PStr "send_frames");
            ("data", PDict [ ("frame_name", PStr "test_frame_7");
                             ("frame_data", PStr "iVBORw0KGgo=") ]) ] in
  connected_clients w ≠ []
  ∧ (∀ sid, sid ∈ members_of (KStr stream_frames) (client_subscriptions w) →
            all_sends_ok sid = false)
  ∧ delivered "stream_frames" (tick_trace (tick fixture_png all_sends_ok noon w 7))
    = [ ("b", payload); ("c", payload) ].
Proof.
  intros w payload.
  assert (connected_clients w ≠ []) as Hreg by discriminate.
  assert (∀ sid, sid ∈ members_of (KStr stream_frames) (client_subscriptions w) →
                 all_sends_ok sid = false) as Hok by reflexivity.
  destruct (broadcast_reaches_subscribers fixture_png all_sends_ok noon w 7 Hreg)
    as (_ & _ & Hall).
  destruct (Hall Hok) as [Hsent _].
  split; [exact Hreg|]. split; [exact Hok|].
  rewrite Hsent. reflexivity.
Defined.

(** C7 as stated fails: when a send raises, the subscribers that come
    after it in the table are sent nothing in that tick.  Here ["b"] and
    ["c"] are subscribed to ['stream_frames'], the send to ["b"] raises,
    and no [emit] is called for ["c"]. *)
Lemma broadcast_cut_short :
  ¬ (∀ (emit_raises : string -> bool) (now : instant) (w : world) (i : N)
       (sid : string),
       connected_clients w ≠ [] →
       (∃ ev p, (sid, ev, p)
                ∈ outbound (tick_trace (tick fixture_png emit_raises now w i)))
       ↔ (∃ subscriptions,
            (sid, subscriptions) ∈ client_subscriptions w
            ∧ KStr "stream_frames" ∈ subscriptions)).
Proof.
  intros H.
  set (w := shared (run fixture_png initial_hub
                      [ Connect "a" None noon; Subscribe "a" (PStr "news");
                        Connect "b" None noon; Subscribe "b" (PStr "stream_frames");
                        Connect "c" None noon;
                        Subscribe "c" (PStr "stream_frames") ]).1).
  destruct (H (send_fails_for "b") noon w 0%N "c") as [_ Hsent]; [discriminate|].
  destruct Hsent as (ev & p & Hin).
  - eexists. split.
    + apply dict_get_Some_elem. reflexivity.
    + apply (bool_decide_unpack _). vm_compute. exact I.
  - assert (rooms (tick_trace (tick fixture_png (send_fails_for "b") noon w 0))
            = [ "b" ]) as Hrooms by reflexivity.
    assert ("c" ∈ rooms (tick_trace (tick fixture_png (send_fails_for "b") noon w 0)))
      as Hc.
    { unfold rooms. apply list_elem_of_fmap. exists ("c", ev). split; [done|].
      apply list_elem_of_fmap. by exists ("c", ev, p). }
    rewrite Hrooms in Hc. apply list_elem_of_singleton in Hc. discriminate Hc.
Qed.

(** ** C2: a send that fails *)

Lemma rooms_of_pairs {A} (x : A) (sids : list string) :
  ((λ sid, (sid, x)) <$> sids).*1 = sids.
Proof. induction sids as [|sid sids IH]; [done|]. simpl. f_equal. exact IH. Qed.

Lemma rooms_of_triples {A B} (a : A) (b : B) (sids : list string) :
  ((λ sid, (sid, a, b)) <$> sids).*1.*1 = sids.
Proof. induction sids as [|sid sids IH]; [done|]. simpl. f_equal. exact IH. Qed.

Lemma delivered_failed_tick name fd before x (tail : list effect) :
  (∀ e, e ∈ tail → match e with Emit _ _ _ => False | _ => True end) →
  (delivered "stream_frames"
     ((sends name fd before ++ [ EmitRaised x "stream_frames" fd ]) ++ tail)).*1
  = before.
Proof.
  intros Htail. rewrite !delivered_app, delivered_sends. simpl.
  assert (delivered "stream_frames" tail = []) as ->.
  { induction tail as [|e tail IH]; [done|].
    assert (delivered "stream_frames" tail = []) as IH'.
    { apply IH. intros e' He'. apply Htail. apply elem_of_cons. by right. }
    specialize (Htail e (list_elem_of_here _ _)).
    destruct e; try done. }
  rewrite !app_nil_r. apply rooms_of_pairs.
Qed.

(** C2, as the code has it.  The [try] of the scheduler encloses the
    whole tick.  When the send to a member raises, the members before it
    in the table have been sent the frame, no [emit] is called for the
    members after it, the error is printed, the counter is not advanced,
    and the loop goes on: the next tick, if its sends return, sends to
    every member. *)
Theorem send_failure_ends_tick
    (png_base64 : string -> string)
    (emit_raises : string -> bool) (now : instant) (w : world) (i : N)
    (before : list string) (x : string) (rest : list string) :
  connected_clients w ≠ [] →
  members_of (KStr stream_frames) (client_subscriptions w) = before ++ x :: rest →
  (∀ sid, sid ∈ before → emit_raises sid = false) →
  emit_raises x = true →
  let t := tick png_base64 emit_raises now w i in
  caught t = Some SendError
  ∧ Print (LogLoopError SendError) ∈ tick_trace t
  ∧ (delivered "stream_frames" (tick_trace t)).*1 = before
  ∧ rooms (tick_trace t) = before ++ [ x ]
  ∧ next_counter t = i
  ∧ (∀ emit_raises' now',
       (∀ sid, sid ∈ before ++ x :: rest → emit_raises' sid = false) →
       let t' := tick png_base64 emit_raises' now' w (next_counter t) in
       caught t' = None
       ∧ (delivered "stream_frames" (tick_trace t')).*1 = before ++ x :: rest).
Proof.
  intros Hreg Hmem Hok Hx t. subst t.
  rewrite (tick_aborts png_base64 emit_raises now w i before x rest) by done.
  simpl. split_and!; try done.
  - apply elem_of_cons. right. rewrite !elem_of_app. right.
    apply elem_of_cons. by left.
  - change (delivered "stream_frames" (Produce ?f :: ?tr))
      with (delivered "stream_frames" tr).
    apply delivered_failed_tick.
    intros e He. apply elem_of_cons in He as [->|He]; [done|].
    by apply list_elem_of_singleton in He as ->.
  - unfold rooms.
    change (outbound (Produce ?f :: ?tr)) with (outbound tr).
    rewrite !outbound_app, outbound_sends. simpl.
    rewrite app_nil_r, !fmap_app. f_equal.
    apply rooms_of_triples.
  - intros emit_raises' now' Hok'. rewrite <- Hmem in Hok'.
    rewrite (tick_completes png_base64 emit_raises' now' w i) by done.
    simpl. split; [done|].
    change (delivered "stream_frames" (Produce ?f :: ?tr))
      with (delivered "stream_frames" tr).
    rewrite delivered_app, delivered_sends, Hmem. simpl.
    rewrite app_nil_r. apply rooms_of_pairs.
Qed.

Lemma send_failure_ends_tick_witness :
  let w := shared (run fixture_png initial_hub
                     [ Connect "a" None noon; Subscribe "a" (PStr "stream_frames");
                       Connect "b" None noon; Subscribe "b" (PStr "stream_frames");
                       Connect "c" None noon; Subscribe "c" (PStr "stream_frames") ]).1 in
  let t := tick fixture_png (send_fails_for "b") noon w 4 in
  connected_clients w ≠ []
  ∧ members_of (KStr stream_frames) (client_subscriptions w) = [ "a" ] ++ "b" :: [ "c" ]
  ∧ send_fails_for "b" "a" = false
  ∧ send_fails_for "b" "b" = true
  ∧ rooms (tick_trace t) = [ "a"; "b" ]
  ∧ next_counter t = 4%N.
Proof.
  intros w t.
  assert (connected_clients w ≠ []) as Hreg by discriminate.
  destruct (send_failure_ends_tick fixture_png (send_fails_for "b") noon w 4
              [ "a" ] "b" [ "c" ] Hreg eq_refl)
    as (_ & _ & _ & Hrooms & Hnext & _).
  - intros sid Hin. apply list_elem_of_singleton in Hin as ->. reflexivity.
  - reflexivity.
  - split; [exact Hreg|]. do 3 (split; [reflexivity|]).
    exact (conj Hrooms Hnext).
Defined.

(** C2 as stated fails: with ["a"] and ["b"] subscribed to
    ['stream_frames'], a send to ["a"] that raises ends the tick, and
    ["b"], whose send would not raise, is sent nothing. *)
Lemma send_failure_starves_the_rest :
  let w := shared (run fixture_png initial_hub
                     [ Connect "a" None noon; Subscribe "a" (PStr "stream_frames");
                       Connect "b" None noon; Subscribe "b" (PStr "stream_frames") ]).1 in
  let t := tick fixture_png (send_fails_for "a") noon w 0 in
  members_of (KStr stream_frames) (client_subscriptions w) = [ "a"; "b" ]
  ∧ send_fails_for "a" "b" = false
  ∧ rooms (tick_trace t) = [ "a" ]
  ∧ delivered "stream_frames" (tick_trace t) = []
  ∧ caught t = Some SendError.
Proof. intros w t. by split_and!. Qed.

(** ** C4: the numbers in frame names *)

Lemma keep_digits_uint (d : Decimal.uint) :
  keep_digits (NilEmpty.string_of_uint d) = NilEmpty.string_of_uint d.
Proof. induction d as [|d IH|d IH|d IH|d IH|d IH|d IH|d IH|d IH|d IH|d IH]; cbn; by rewrite ?IH. Qed.

Lemma N_to_uint_nonnil (n : N) : N.to_uint n ≠ Decimal.Nil.
Proof. destruct n as [|p]; [discriminate|]. apply Unsigned.to_uint_nonnil. Qed.

(** The number read back from the name of the [i]-th broadcast frame is
    [i]. *)
Lemma embedded_number_frame (i : N) :
  embedded_number ("test_frame_" +:+ str_of_N i) = Some i.
Proof.
  unfold embedded_number, str_of_N.
  change (keep_digits ("test_frame_" +:+ ?s)) with (keep_digits s).
  pose proof (N_to_uint_nonnil i) as Hnn.
  assert (NilZero.string_of_uint (N.to_uint i)
          = NilEmpty.string_of_uint (N.to_uint i)) as Hs
    by (by destruct (N.to_uint i)).
  rewrite Hs, keep_digits_uint, <- Hs, NilZero.usu by done.
  simpl. f_equal. apply DecimalN.Unsigned.of_to.
Qed.

Lemma emit_outbound (tr : list effect) room ev p :
  Emit room ev p ∈ tr → (room, ev, p) ∈ outbound tr.
Proof. intros Hin. apply list_elem_of_omap. by exists (Emit room ev p). Qed.

Lemma frame_numbers_elem sid (tr : list effect) n :
  n ∈ frame_numbers sid tr →
  ∃ ev p, Emit sid ev p ∈ tr ∧ frame_name_of ev p ≫= embedded_number = Some n.
Proof.
  unfold frame_numbers. rewrite list_elem_of_omap.
  intros [e [Hin He]]. destruct e as [|room ev p| | |]; try done.
  destruct (decide (room = sid)) as [->|]; [|done]. by exists ev, p.
Qed.

Section Counter.
Variable png_base64 : string -> string.

(** A frame that a tick delivers carries the value of the counter at the
    start of the tick, and the registry was not empty. *)
Lemma tick_frame_number emit_raises now w i sid n :
  n ∈ frame_numbers sid (tick_trace (tick png_base64 emit_raises now w i)) →
  n = i ∧ connected_clients w ≠ [].
Proof.
  intros Hn. apply frame_numbers_elem in Hn as (ev & p & Hin & Hname).
  split.
  - apply emit_outbound, tick_outbound in Hin as (_ & -> & ->).
    simpl in Hname. rewrite embedded_number_frame in Hname. by injection Hname.
  - intros Hempty. unfold tick in Hin. rewrite Hempty in Hin. simpl in Hin.
    by apply list_elem_of_singleton in Hin.
Qed.

(** The counter after a tick: advanced by one when a frame was produced
    and no send raised, unchanged otherwise. *)
Lemma tick_next_counter emit_raises now w i :
  let t := tick png_base64 emit_raises now w i in
  (connected_clients w ≠ [] → caught t = None → next_counter t = (i + 1)%N)
  ∧ (i ≤ next_counter t)%N.
Proof.
  unfold tick. destruct (connected_clients w) as [|c cs]; simpl.
  { split; [done|lia]. }
  destruct (fan_out emit_raises _ _ (client_subscriptions w)) as [sent [e|]];
    simpl; split; try done; lia.
Qed.

Lemma step_counter h e : (counter h ≤ counter (step png_base64 h e).1)%N.
Proof.
  destruct e; simpl; try lia. apply tick_next_counter.
Qed.

Lemma run_counter h es : (counter h ≤ counter (run png_base64 h es).1)%N.
Proof.
  revert h. induction es as [|e es IH]; intros h; simpl; [lia|].
  pose proof (step_counter h e) as H1.
  destruct (step png_base64 h e) as [h1 tr1]. specialize (IH h1).
  destruct (run png_base64 h1 es) as [h2 tr2]. simpl in *. lia.
Qed.

End Counter.

(** C4, as the code has it.  The frames the scheduler broadcasts are
    named after its counter.  Take two ticks of one run, the second
    later than the first, with any events in between: a frame delivered
    by the later tick never has a smaller number than one delivered by
    the earlier tick, and it has a strictly greater number when the
    earlier tick ended without a caught error. *)
Theorem broadcast_numbers_increase
    (png_base64 : string -> string) (h : hub)
    (es1 : list event) (raises1 : string -> bool) (now1 : instant)
    (es2 : list event) (raises2 : string -> bool) (now2 : instant)
    (a b : string) (n1 n2 : N) :
  let h1 := (run png_base64 h es1).1 in
  let t1 := tick png_base64 raises1 now1 (shared h1) (counter h1) in
  let h2 := (run png_base64 (step png_base64 h1 (Tick raises1 now1)).1 es2).1 in
  let t2 := tick png_base64 raises2 now2 (shared h2) (counter h2) in
  n1 ∈ frame_numbers a (tick_trace t1) →
  n2 ∈ frame_numbers b (tick_trace t2) →
  (n1 ≤ n2)%N ∧ (caught t1 = None → (n1 < n2)%N).
Proof.
  intros h1 t1 h2 t2 Hn1 Hn2.
  apply tick_frame_number in Hn1 as [-> Hreg].
  apply tick_frame_number in Hn2 as [-> _].
  pose proof (run_counter png_base64 (step png_base64 h1 (Tick raises1 now1)).1 es2)
    as Hrun.
  fold h2 in Hrun. simpl in Hrun. fold t1 in Hrun.
  destruct (tick_next_counter png_base64 raises1 now1 (shared h1) (counter h1))
    as [Hadv Hle].
  fold t1 in Hadv, Hle. split; [lia|].
  intros Hdone. specialize (Hadv Hreg Hdone). lia.
Qed.

Lemma broadcast_numbers_increase_witness :
  let es1 := [ Connect "a" None noon; Subscribe "a" (PStr "stream_frames") ] in
  let es2 := [ RequestImage "a" (PDict [ ("type", PStr "request") ]) noon ] in
  let h1 := (run fixture_png initial_hub es1).1 in
  let t1 := tick fixture_png all_sends_ok noon (shared h1) (counter h1) in
  let h2 := (run fixture_png (step fixture_png h1 (Tick all_sends_ok noon)).1 es2).1 in
  let t2 := tick fixture_png all_sends_ok one_past_noon (shared h2) (counter h2) in
  frame_numbers "a" (tick_trace t1) = [ 0%N ]
  ∧ frame_numbers "a" (tick_trace t2) = [ 1%N ]
  ∧ caught t1 = None
  ∧ (0 < 1)%N.
Proof.
  intros es1 es2 h1 t1 h2 t2.
  assert (frame_numbers "a" (tick_trace t1) = [ 0%N ]) as E1 by reflexivity.
  assert (frame_numbers "a" (tick_trace t2) = [ 1%N ]) as E2 by reflexivity.
  assert (0%N ∈ frame_numbers "a" (tick_trace t1)) as H1
    by (rewrite E1; apply list_elem_of_here).
  assert (1%N ∈ frame_numbers "a" (tick_trace t2)) as H2
    by (rewrite E2; apply list_elem_of_here).
  destruct (broadcast_numbers_increase fixture_png initial_hub
              es1 all_sends_ok noon es2 all_sends_ok one_past_noon
              "a" "a" 0%N 1%N H1 H2) as [_ Hlt].
  split; [exact E1|]. split; [exact E2|]. split; [reflexivity|].
  exact (Hlt eq_refl).
Defined.

(** C4 as stated fails: the name of a frame made for a direct request
    embeds [int(time.time())], not a sequence number, so two requests
    handled within the same second yield frames with the same number. *)
Lemma direct_request_numbers_repeat :
  ¬ (∀ (es : list event) (sid : string) (i j : nat) (n1 n2 : N),
       (i < j)%nat →
       frame_numbers sid (run fixture_png initial_hub es).2 !! i = Some n1 →
       frame_numbers sid (run fixture_png initial_hub es).2 !! j = Some n2 →
       (n1 < n2)%N).
Proof.
  intros H.
  specialize (H [ Connect "a" None noon;
                  RequestImage "a" (PDict [ ("type", PStr "request") ]) noon;
                  RequestImage "a" (PDict [ ("type", PStr "request") ]) noon ]
                "a" 0%nat 1%nat 1700000000%N 1700000000%N).
  assert (1700000000 < 1700000000)%N as Habs.
  { apply H; [lia|reflexivity|reflexivity]. }
  lia.
Qed.

(** The same number can also reach a client twice from the scheduler:
    a tick that ends on a raising send leaves the counter where it was. *)
Example aborted_tick_repeats_number :
  let w := shared (run fixture_png initial_hub
                     [ Connect "a" None noon; Subscribe "a" (PStr "stream_frames");
                       Connect "b" None noon; Subscribe "b" (PStr "stream_frames") ]).1 in
  frame_numbers "a"
    (run fixture_png {| shared := w; counter := 0 |}
       [ Tick (send_fails_for "b") noon; Tick (send_fails_for "b") one_past_noon ]).2
  = [ 0%N; 0%N ].
Proof. reflexivity. Qed.

(** *** The number in the name of a direct-request frame *)

Lemma keep_digits_app (s1 s2 : string) :
  keep_digits (s1 +:+ s2) = keep_digits s1 +:+ keep_digits s2.
Proof.
  induction s1 as [|c s1 IH]; [done|]. simpl.
  destruct (is_digit c); [|exact IH].
  change (String c (keep_digits s1) +:+ keep_digits s2)
    with (String c (keep_digits s1 +:+ keep_digits s2)).
  f_equal. exact IH.
Qed.

Lemma string_app_empty (s : string) : s +:+ "" = s.
Proof.
  induction s as [|c s IH]; [done|].
  change (String c s +:+ "") with (String c (s +:+ "")). f_equal. exact IH.
Qed.

Lemma str_of_Z_nonneg (z : Z) : (0 ≤ z)%Z → str_of_Z z = str_of_N (Z.to_N z).
Proof. intros Hz. destruct z as [|p|p]; [done|done|lia]. Qed.

Lemma embedded_number_image (z : Z) :
  (0 ≤ z)%Z →
  embedded_number ("test_image_" +:+ str_of_Z z +:+ ".png") = Some (Z.to_N z).
Proof.
  intros Hz. rewrite str_of_Z_nonneg by done.
  pose proof (embedded_number_frame (Z.to_N z)) as Hframe.
  unfold embedded_number in *.
  change (keep_digits ("test_frame_" +:+ ?s)) with (keep_digits s) in Hframe.
  change (keep_digits ("test_image_" +:+ ?s)) with (keep_digits s).
  rewrite keep_digits_app.
  change (keep_digits ".png") with "". by rewrite string_app_empty.
Qed.

(** X20.  The frame sent in reply to a direct request is numbered by
    the clock: the number in its [img_name] is [int(time.time())]. *)
Lemma direct_request_frame_number
    (png_base64 : string -> string)
    (sid : string) (data : pyval) (now : instant) (w : world) :
  payload_type_is data "request" = true →
  (0 ≤ unix_seconds now)%Z →
  frame_numbers sid (trace (handle_request_image png_base64 sid data now w))
  = [ Z.to_N (unix_seconds now) ].
Proof.
  intros Hreq Hz. unfold handle_request_image, payload_type_is in *.
  destruct data as [| | | | |d]; try done. simpl in *.
  destruct d as [|entry d']; [done|].
  set (fields := entry :: d') in *.
  destruct (dict_get fields "type") as [[| | |s| |]|]; try done. simpl.
  rewrite Hreq. simpl. rewrite decide_True by done. simpl.
  by rewrite embedded_number_image.
Qed.

(** * Further properties of the handlers *)

(** ** Subscribe: payloads *)

(** The table as [handle_subscribe] leaves it after lines 59-60. *)
Lemma ensured_entry_get (d : dict (gset hkey)) (sid other : string) :
  dict_get (if dict_in sid d then d else dict_set d sid ∅) other
  = if decide (other = sid) then Some (default ∅ (dict_get d sid))
    else dict_get d other.
Proof.
  destruct (decide (other = sid)) as [->|Hne].
  - destruct (dict_in sid d) eqn:E.
    + apply dict_in_true in E as [v Hv]. by rewrite Hv.
    + apply dict_in_false in E. by rewrite dict_get_set_eq, E.
  - destruct (dict_in sid d); [done|]. by apply dict_get_set_ne.
Qed.

(** X1.  A subscribe payload that is neither a string nor a dictionary
    ([None], a number, a boolean, a list) makes [handle_subscribe] raise
    [AttributeError] at [data.get]: nothing is changed, printed or
    sent. *)
Theorem subscribe_malformed_payload (sid : string) (data : pyval) (w : world) :
  (∀ s, data ≠ PStr s) →
  (∀ d, data ≠ PDict d) →
  handle_subscribe sid data w
  = {| after := w; trace := []; raised := Some AttributeError |}.
Proof.
  intros Hstr Hdict. unfold handle_subscribe.
  destruct data as [|b|z|s|l|d]; try done.
  - by destruct (Hstr s).
  - by destruct (Hdict d).
Qed.

Lemma subscribe_malformed_payload_witness :
  handle_subscribe "a" (PList [ PStr "stream_frames" ]) initial_world
  = {| after := initial_world; trace := []; raised := Some AttributeError |}.
Proof.
  apply (subscribe_malformed_payload "a" (PList [ PStr "stream_frames" ]) initial_world);
    discriminate.
Defined.

(** X2.  When the topic named by the payload is unhashable (a list or a
    dictionary), [handle_subscribe] raises [TypeError] at [set.add]
    without printing or sending; the Registry is untouched, but the
    entry of the id has already been created: an id that had none now
    has an empty set, and an id that had one keeps it. *)
Theorem subscribe_unhashable_topic
    (sid : string) (data topic : pyval) (w : world) :
  subscribe_topic data = inr topic →
  hash_key topic = inl TypeError →
  let r := handle_subscribe sid data w in
  raised r = Some TypeError
  ∧ trace r = []
  ∧ connected_clients (after r) = connected_clients w
  ∧ dict_get (client_subscriptions (after r)) sid
    = Some (default ∅ (dict_get (client_subscriptions w) sid)).
Proof.
  intros Htopic Hhash r. subst r. unfold handle_subscribe.
  rewrite Htopic, Hhash. simpl. split_and!; try done.
  rewrite ensured_entry_get. by rewrite decide_True.
Qed.

Lemma subscribe_unhashable_topic_witness :
  let r := handle_subscribe "ghost" (PDict [ ("topic", PList []) ]) initial_world in
  raised r = Some TypeError
  ∧ trace r = []
  ∧ dict_get (client_subscriptions (after r)) "ghost" = Some ∅.
Proof.
  intros r.
  destruct (subscribe_unhashable_topic "ghost" (PDict [ ("topic", PList []) ])
              (PList []) initial_world eq_refl eq_refl) as (Hr & Ht & _ & Hs).
  exact (conj Hr (conj Ht Hs)).
Defined.

(** X3.  A dictionary payload without a [topic] field subscribes the id
    to the empty string: the handler does exactly what it does for the
    payload [""], and the set of the id then contains [""]. *)
Theorem subscribe_default_topic
    (sid : string) (d : list (string * pyval)) (w : world) :
  dict_get d "topic" = None →
  handle_subscribe sid (PDict d) w = handle_subscribe sid (PStr "") w
  ∧ ∃ s, dict_get (client_subscriptions (after (handle_subscribe sid (PDict d) w))) sid
         = Some s
         ∧ KStr "" ∈ s.
Proof.
  intros Hnone.
  assert (subscribe_topic (PDict d) = inr (PStr "")) as Htopic.
  { unfold subscribe_topic, py_get. by rewrite Hnone. }
  rewrite (handle_subscribe_string sid (PDict d) "" w Htopic).
  rewrite (handle_subscribe_string sid (PStr "") "" w eq_refl).
  split; [done|]. simpl. eexists. split; [apply dict_get_set_eq|].
  apply elem_of_union. right. by apply elem_of_singleton.
Qed.

Lemma subscribe_default_topic_witness :
  handle_subscribe "a" (PDict [ ("channel", PStr "stream_frames") ]) initial_world
  = handle_subscribe "a" (PStr "") initial_world.
Proof.
  destruct (subscribe_default_topic "a" [ ("channel", PStr "stream_frames") ]
              initial_world eq_refl) as [H _].
  exact H.
Defined.

(** X4.  The two payload forms are interchangeable: a dictionary whose
    [topic] field is the string [t] is handled exactly as the bare
    string [t]. *)
Theorem subscribe_payload_forms
    (sid : string) (d : list (string * pyval)) (t : string) (w : world) :
  dict_get d "topic" = Some (PStr t) →
  handle_subscribe sid (PDict d) w = handle_subscribe sid (PStr t) w.
Proof.
  intros Hget.
  assert (subscribe_topic (PDict d) = inr (PStr t)) as Htopic.
  { unfold subscribe_topic, py_get. by rewrite Hget. }
  rewrite (handle_subscribe_string sid (PDict d) t w Htopic).
  by rewrite (handle_subscribe_string sid (PStr t) t w eq_refl).
Qed.

Lemma subscribe_payload_forms_witness :
  handle_subscribe "a" (PDict [ ("id", PInt 7); ("topic", PStr "news") ]) initial_world
  = handle_subscribe "a" (PStr "news") initial_world.
Proof.
  apply (subscribe_payload_forms "a" [ ("id", PInt 7); ("topic", PStr "news") ]
           "news" initial_world).
  reflexivity.
Defined.

(** ** Subscribe: what it keeps *)

(** X5.  [handle_subscribe] never removes a topic: whatever the payload,
    every id that had a subscription set still has one, holding at
    least the topics it held. *)
Theorem subscriptions_only_grow
    (sid : string) (data : pyval) (w : world) (other : string) (s : gset hkey) :
  dict_get (client_subscriptions w) other = Some s →
  ∃ s', dict_get (client_subscriptions (after (handle_subscribe sid data w))) other
        = Some s'
        ∧ s ⊆ s'.
Proof.
  intros Hget. unfold handle_subscribe.
  destruct (subscribe_topic data) as [e|topic]; simpl; [by exists s|].
  assert (dict_get (if dict_in sid (client_subscriptions w)
                    then client_subscriptions w
                    else dict_set (client_subscriptions w) sid ∅) other = Some s)
    as Hget'.
  { rewrite ensured_entry_get.
    destruct (decide (other = sid)) as [->|]; [by rewrite Hget|done]. }
  destruct (hash_key topic) as [e|k]; simpl; [by exists s|].
  destruct (decide (other = sid)) as [->|Hne].
  - rewrite dict_get_set_eq, Hget'. simpl. eexists. split; [done|].
    apply union_subseteq_l.
  - rewrite dict_get_set_ne by done. by exists s.
Qed.

Lemma subscriptions_only_grow_witness :
  let w := after (handle_subscribe "a" (PStr "stream_frames") initial_world) in
  ∃ s', dict_get (client_subscriptions (after (handle_subscribe "a" (PStr "news") w))) "a"
        = Some s'
        ∧ {[ KStr "stream_frames" ]} ⊆ s'.
Proof.
  intros w.
  destruct (subscriptions_only_grow "a" (PStr "news") w "a"
              (∅ ∪ {[ KStr "stream_frames" ]}) eq_refl) as (s' & Hget & Hsub).
  exists s'. split; [exact Hget|].
  intros k Hk. apply Hsub. apply elem_of_union. by right.
Defined.

(** X6.  Subscribing one id to two string topics gives the same
    dictionaries in either order. *)
Theorem subscribe_order_irrelevant (sid t1 t2 : string) (w : world) :
  after (handle_subscribe sid (PStr t2) (after (handle_subscribe sid (PStr t1) w)))
  = after (handle_subscribe sid (PStr t1) (after (handle_subscribe sid (PStr t2) w))).
Proof.
  rewrite !(handle_subscribe_string _ (PStr _) _ _ eq_refl). simpl.
  rewrite !dict_get_set_eq, !dict_set_set. simpl. do 2 f_equal.
  rewrite <- !(assoc_L (∪)). f_equal. apply (comm_L (∪)).
Qed.

(** ** Connect and disconnect *)

Lemma dict_del_set_fresh {V} (d : dict V) (k : string) (v : V) :
  dict_in k d = false → dict_del (dict_set d k v) k = d.
Proof.
  unfold dict_in. induction d as [|[k0 v0] r IH]; simpl.
  - intros _. by rewrite decide_True.
  - destruct (decide (k = k0)) as [->|Hne]; [done|]. simpl.
    rewrite decide_False by done. intros H. f_equal. by apply IH.
Qed.

(** X7.  For an id that is in neither dictionary, a connect followed by
    a disconnect gives back exactly the dictionaries there were, order
    of the entries included. *)
Theorem connect_disconnect_round_trip
    (sid : string) (addr : option string) (now : instant) (w : world) :
  dict_in sid (connected_clients w) = false →
  dict_in sid (client_subscriptions w) = false →
  after (handle_disconnect sid (after (handle_connect sid addr now w))) = w.
Proof.
  intros Hreg Hsub. unfold handle_disconnect, handle_connect. simpl.
  assert (∀ {V} (d : dict V) v, dict_in sid (dict_set d sid v) = true) as Hin.
  { intros V d v. apply dict_in_set. by left. }
  rewrite !Hin, !dict_del_set_fresh by done. by destruct w.
Qed.

Lemma connect_disconnect_round_trip_witness :
  let w := shared (run fixture_png initial_hub
                     [ Connect "a" None noon; Subscribe "a" (PStr "stream_frames") ]).1 in
  after (handle_disconnect "b" (after (handle_connect "b" (Some "10.0.0.9") noon w))) = w.
Proof.
  intros w.
  apply (connect_disconnect_round_trip "b" (Some "10.0.0.9") noon w); reflexivity.
Defined.

Lemma rooms_elem (tr : list effect) (room : string) :
  room ∈ rooms tr → ∃ ev p, (room, ev, p) ∈ outbound tr.
Proof.
  unfold rooms. intros H.
  apply list_elem_of_fmap in H as [y [-> H]].
  apply list_elem_of_fmap in H as [[[room ev] p] [-> H]].
  by exists ev, p.
Qed.

(** A tick calls [emit] only for ids that have a subscription entry. *)
Lemma tick_rooms_in_table png_base64 emit_raises now w i room :
  room ∈ rooms (tick_trace (tick png_base64 emit_raises now w i)) →
  dict_in room (client_subscriptions w) = true.
Proof.
  intros H. apply rooms_elem in H as (ev & p & H).
  apply tick_outbound in H as (Hmem & _ & _).
  apply dict_in_keys. by apply members_of_keys in Hmem.
Qed.

(** X8.  After [handle_disconnect] the id is in neither dictionary,
    whatever state it was in, and a tick run on the resulting state
    calls [emit] for it not at all, whichever sends raise. *)
Theorem disconnect_clears_and_silences
    (png_base64 : string -> string) (sid : string) (w : world)
    (emit_raises : string -> bool) (now : instant) (i : N) :
  let w' := after (handle_disconnect sid w) in
  dict_in sid (connected_clients w') = false
  ∧ dict_in sid (client_subscriptions w') = false
  ∧ sid ∉ rooms (tick_trace (tick png_base64 emit_raises now w' i)).
Proof.
  intros w'. subst w'. simpl.
  assert (∀ {V} (d : dict V),
            dict_in sid (if dict_in sid d then dict_del d sid else d) = false)
    as Hgone.
  { intros V d. apply not_true_is_false. rewrite dict_in_discard. by intros [? _]. }
  split_and!; [apply Hgone|apply Hgone|].
  intros Hin. apply tick_rooms_in_table in Hin. simpl in Hin.
  by rewrite Hgone in Hin.
Qed.

Lemma members_of_del k (d : dict (gset hkey)) (sid : string) :
  members_of k (dict_del d sid) = filter (λ x, sid ≠ x) (members_of k d).
Proof.
  induction d as [|[k0 s0] r IH]; [done|]. simpl.
  rewrite members_of_cons.
  destruct (decide (sid = k0)) as [->|Hne].
  - destruct (decide (k ∈ s0)); [|done].
    rewrite filter_cons_False; [done|]. by intros ?.
  - rewrite members_of_cons.
    destruct (decide (k ∈ s0)); [|done].
    rewrite filter_cons_True by done. f_equal. exact IH.
Qed.

(** X9.  A disconnect takes the id, and only the id, out of the members
    of every topic: the other members stay, in the same order. *)
Theorem members_after_disconnect (sid : string) (w : world) (k : hkey) :
  members_of k (client_subscriptions (after (handle_disconnect sid w)))
  = filter (λ x, sid ≠ x) (members_of k (client_subscriptions w)).
Proof.
  simpl. destruct (dict_in sid (client_subscriptions w)) eqn:E.
  - apply members_of_del.
  - rewrite <- members_of_del. by rewrite dict_del_absent.
Qed.

(** X10.  A connect leaves the id with an empty subscription set, also
    when the id was connected and subscribed before: a tick run right
    after it calls [emit] for the id not at all. *)
Theorem fresh_connection_receives_nothing
    (png_base64 : string -> string)
    (sid : string) (addr : option string) (now : instant) (w : world)
    (emit_raises : string -> bool) (now' : instant) (i : N) :
  dict_wf (client_subscriptions w) →
  let w' := after (handle_connect sid addr now w) in
  dict_get (client_subscriptions w') sid = Some ∅
  ∧ sid ∉ rooms (tick_trace (tick png_base64 emit_raises now' w' i)).
Proof.
  intros Hwf w'. subst w'. simpl. split; [apply dict_get_set_eq|].
  intros Hin. apply rooms_elem in Hin as (ev & p & Hin).
  apply tick_outbound in Hin as (Hmem & _ & _). simpl in Hmem.
  apply members_of_elem in Hmem as (s & Hs & Hk).
  apply dict_elem_get in Hs; [|by apply dict_wf_set].
  rewrite dict_get_set_eq in Hs. injection Hs as <-.
  by apply not_elem_of_empty in Hk.
Qed.

Lemma fresh_connection_receives_nothing_witness :
  let w := shared (run fixture_png initial_hub
                     [ Connect "a" None noon; Subscribe "a" (PStr "stream_frames") ]).1 in
  let w' := after (handle_connect "a" None one_past_noon w) in
  dict_wf (client_subscriptions w)
  ∧ members_of (KStr stream_frames) (client_subscriptions w) = [ "a" ]
  ∧ "a" ∉ rooms (tick_trace (tick fixture_png all_sends_ok one_past_noon w' 0)).
Proof.
  intros w w'.
  assert (dict_wf (client_subscriptions w)) as Hwf.
  { unfold dict_wf. apply (bool_decide_unpack _). vm_compute. exact I. }
  destruct (fresh_connection_receives_nothing fixture_png "a" None one_past_noon w
              all_sends_ok one_past_noon 0 Hwf) as [_ Hnot].
  split; [exact Hwf|]. split; [reflexivity|exact Hnot].
Defined.

(** In a tick whose sends all return, each member is delivered a frame
    numbered by the counter. *)
Lemma tick_completes_number png_base64 emit_raises now w i sid :
  connected_clients w ≠ [] →
  (∀ s, s ∈ members_of (KStr stream_frames) (client_subscriptions w) →
        emit_raises s = false) →
  sid ∈ members_of (KStr stream_frames) (client_subscriptions w) →
  i ∈ frame_numbers sid (tick_trace (tick png_base64 emit_raises now w i)).
Proof.
  intros Hreg Hok Hmem. rewrite tick_completes by done.
  unfold frame_numbers. apply list_elem_of_omap.
  exists (Emit sid "stream_frames"
            (envelope ("test_frame_" +:+ str_of_N i)
               (generate_test_image png_base64 now))).
  split.
  - simpl. apply elem_of_cons. right. apply elem_of_app. left.
    unfold sends. apply list_elem_of_bind. exists sid. split; [|done].
    apply elem_of_cons. by left.
  - rewrite decide_True by done. simpl. apply embedded_number_frame.
Qed.

(** X11.  Connect, then subscribe to ['stream_frames'], then a tick in
    which no send raises: the [stream_frames] event is delivered to the
    id exactly once, with the counter of the tick in its name. *)
Theorem connect_subscribe_receives_frame
    (png_base64 : string -> string)
    (sid : string) (addr : option string) (now : instant) (w : world)
    (emit_raises : string -> bool) (now' : instant) (i : N) :
  dict_wf (client_subscriptions w) →
  (∀ s, emit_raises s = false) →
  let w1 := after (handle_connect sid addr now w) in
  let w2 := after (handle_subscribe sid (PStr "stream_frames") w1) in
  let t := tick png_base64 emit_raises now' w2 i in
  count_occ String.string_dec (delivered "stream_frames" (tick_trace t)).*1 sid = 1
  ∧ i ∈ frame_numbers sid (tick_trace t)
  ∧ (∀ n, n ∈ frame_numbers sid (tick_trace t) → n = i)
  ∧ next_counter t = (i + 1)%N.
Proof.
  intros Hwf Hok w1 w2 t.
  assert (connected_clients w2 ≠ []) as Hreg.
  { unfold w2, w1. rewrite handle_subscribe_registry. simpl.
    intros Hnil. apply (f_equal (dict_in sid)) in Hnil.
    assert (dict_in sid (dict_set (connected_clients w) sid
                           {| connected_at := now; ip := addr |}) = true) as Hin
      by (apply dict_in_set; by left).
    by rewrite Hin in Hnil. }
  assert (dict_wf (client_subscriptions w2)) as Hwf2.
  { unfold w2, w1. apply handle_subscribe_wf. simpl. by apply dict_wf_set. }
  assert (∃ s, dict_get (client_subscriptions w2) sid = Some s
               ∧ KStr stream_frames ∈ s) as (s & Hs & Hk).
  { unfold w2.
    rewrite (handle_subscribe_string sid (PStr "stream_frames") "stream_frames" w1 eq_refl).
    simpl. eexists. split; [apply dict_get_set_eq|].
    apply elem_of_union. right. by apply elem_of_singleton. }
  assert (sid ∈ members_of (KStr stream_frames) (client_subscriptions w2)) as Hmem.
  { apply members_of_elem. exists s. split; [|done]. by apply dict_get_Some_elem. }
  split_and!.
  - unfold t. rewrite tick_completes by done. simpl.
    change (delivered "stream_frames" (Produce ?f :: ?tr))
      with (delivered "stream_frames" tr).
    rewrite delivered_app, delivered_sends. simpl.
    rewrite app_nil_r, rooms_of_pairs. by apply members_of_count with s.
  - by apply tick_completes_number.
  - intros n Hn. by apply tick_frame_number in Hn as [-> _].
  - unfold t. by rewrite tick_completes.
Qed.

Lemma connect_subscribe_receives_frame_witness :
  let w := shared (run fixture_png initial_hub
                     [ Connect "b" None noon; Subscribe "b" (PStr "stream_frames") ]).1 in
  let w1 := after (handle_connect "a" None noon w) in
  let w2 := after (handle_subscribe "a" (PStr "stream_frames") w1) in
  let t := tick fixture_png all_sends_ok one_past_noon w2 3 in
  dict_wf (client_subscriptions w)
  ∧ (delivered "stream_frames" (tick_trace t)).*1 = [ "b"; "a" ]
  ∧ 3%N ∈ frame_numbers "a" (tick_trace t).
Proof.
  intros w w1 w2 t.
  assert (dict_wf (client_subscriptions w)) as Hwf.
  { unfold dict_wf. apply (bool_decide_unpack _). vm_compute. exact I. }
  destruct (connect_subscribe_receives_frame fixture_png "a" None noon w
              all_sends_ok one_past_noon 3 Hwf) as (_ & Hnum & _); [reflexivity|].
  split; [exact Hwf|]. split; [reflexivity|exact Hnum].
Defined.

(** ** The shape of a tick *)

(** Either no member's send raises, or there is a first one that does. *)
Lemma first_raising (f : string -> bool) (l : list string) :
  (∀ x, x ∈ l → f x = false)
  ∨ ∃ before x rest,
      l = before ++ x :: rest ∧ (∀ y, y ∈ before → f y = false) ∧ f x = true.
Proof.
  induction l as [|a l IH].
  - left. intros x Hx. by apply elem_of_nil in Hx.
  - destruct (f a) eqn:Ha.
    + right. exists [], a, l. split; [done|]. split; [|done].
      intros y Hy. by apply elem_of_nil in Hy.
    + destruct IH as [Hall|(before & x & rest & -> & Hbefore & Hx)].
      * left. intros x Hx. apply elem_of_cons in Hx as [->|Hx]; auto.
      * right. exists (a :: before), x, rest. split; [done|]. split; [|done].
        intros y Hy. apply elem_of_cons in Hy as [->|Hy]; auto.
Qed.

Lemma sleeps_app (tr1 tr2 : list effect) : sleeps (tr1 ++ tr2) = sleeps tr1 ++ sleeps tr2.
Proof. apply omap_app. Qed.

Lemma sleeps_sends name fd sids : sleeps (sends name fd sids) = [].
Proof.
  induction sids as [|sid sids IH]; [done|].
  change (sends name fd (sid :: sids))
    with ([ Emit sid "stream_frames" fd; Print (LogSentFrame name sid) ]
          ++ sends name fd sids).
  by rewrite sleeps_app, IH.
Qed.

Lemma broadcast_lines_app (tr1 tr2 : list effect) :
  broadcast_lines (tr1 ++ tr2) = (broadcast_lines tr1 + broadcast_lines tr2)%nat.
Proof. unfold broadcast_lines. by rewrite omap_app, length_app. Qed.

Lemma broadcast_lines_sends name fd sids : broadcast_lines (sends name fd sids) = 0%nat.
Proof.
  induction sids as [|sid sids IH]; [done|].
  change (sends name fd (sid :: sids))
    with ([ Emit sid "stream_frames" fd; Print (LogSentFrame name sid) ]
          ++ sends name fd sids).
  by rewrite broadcast_lines_app, IH.
Qed.

Lemma rooms_app (tr1 tr2 : list effect) : rooms (tr1 ++ tr2) = rooms tr1 ++ rooms tr2.
Proof. unfold rooms. by rewrite outbound_app, !fmap_app. Qed.

Lemma rooms_sends name fd sids : rooms (sends name fd sids) = sids.
Proof. unfold rooms. rewrite outbound_sends. apply rooms_of_triples. Qed.

Lemma delivered_rooms_sends name fd sids :
  (delivered "stream_frames" (sends name fd sids)).*1 = sids.
Proof. rewrite delivered_sends. apply rooms_of_pairs. Qed.

Section TickShape.
Variable png_base64 : string -> string.
Variables (emit_raises : string -> bool) (now : instant) (w : world) (i : N).

#[local] Abbreviation this_tick := (tick png_base64 emit_raises now w i).
#[local] Abbreviation subscribers :=
  (members_of (KStr stream_frames) (client_subscriptions w)).

(** What the observations of a tick are, in each of its three courses:
    nothing to do, all sends returned, a send raised. *)
Lemma tick_summary :
  (connected_clients w = []
   ∧ rooms (tick_trace this_tick) = []
   ∧ (delivered "stream_frames" (tick_trace this_tick)).*1 = []
   ∧ broadcast_lines (tick_trace this_tick) = 0%nat
   ∧ sleeps (tick_trace this_tick) = [ 1%nat ]
   ∧ caught this_tick = None
   ∧ next_counter this_tick = i)
  ∨ (connected_clients w ≠ []
     ∧ rooms (tick_trace this_tick) = subscribers
     ∧ (delivered "stream_frames" (tick_trace this_tick)).*1 = subscribers
     ∧ broadcast_lines (tick_trace this_tick) = 1%nat
     ∧ sleeps (tick_trace this_tick) = [ 1%nat ]
     ∧ caught this_tick = None
     ∧ next_counter this_tick = (i + 1)%N
     ∧ Print (LogBroadcasted ("test_frame_" +:+ str_of_N i) (length subscribers))
       ∈ tick_trace this_tick)
  ∨ (connected_clients w ≠ []
     ∧ ∃ before x rest,
         subscribers = before ++ x :: rest
         ∧ emit_raises x = true
         ∧ rooms (tick_trace this_tick) = before ++ [ x ]
         ∧ (delivered "stream_frames" (tick_trace this_tick)).*1 = before
         ∧ broadcast_lines (tick_trace this_tick) = 0%nat
         ∧ sleeps (tick_trace this_tick) = [ 1%nat ]
         ∧ caught this_tick = Some SendError
         ∧ next_counter this_tick = i).
Proof.
  destruct (connected_clients w) as [|c cs] eqn:Ereg.
  { left. unfold tick. rewrite Ereg. by split_and!. }
  right. assert (connected_clients w ≠ []) as Hreg by (by rewrite Ereg).
  destruct (first_raising emit_raises subscribers)
    as [Hok|(before & x & rest & Hmem & Hbefore & Hx)].
  - left. rewrite tick_completes by done. simpl. split; [done|].
    split_and!; try done.
    + change (rooms (Produce ?f :: ?tr)) with (rooms tr).
      rewrite rooms_app, rooms_sends. simpl. by rewrite app_nil_r.
    + change (delivered "stream_frames" (Produce ?f :: ?tr))
        with (delivered "stream_frames" tr).
      rewrite delivered_app, fmap_app, delivered_rooms_sends. simpl.
      by rewrite app_nil_r.
    + change (broadcast_lines (Produce ?f :: ?tr)) with (broadcast_lines tr).
      by rewrite broadcast_lines_app, broadcast_lines_sends.
    + change (sleeps (Produce ?f :: ?tr)) with (sleeps tr).
      by rewrite sleeps_app, sleeps_sends.
    + apply elem_of_cons. right. apply elem_of_app. right.
      apply elem_of_cons. by left.
  - right. split; [done|]. exists before, x, rest.
    rewrite (tick_aborts png_base64 emit_raises now w i before x rest) by done.
    simpl. split_and!; try done.
    + change (rooms (Produce ?f :: ?tr)) with (rooms tr).
      rewrite !rooms_app, rooms_sends. simpl. by rewrite app_nil_r.
    + change (delivered "stream_frames" (Produce ?f :: ?tr))
        with (delivered "stream_frames" tr).
      rewrite !delivered_app, !fmap_app, delivered_rooms_sends. simpl.
      by rewrite !app_nil_r.
    + change (broadcast_lines (Produce ?f :: ?tr)) with (broadcast_lines tr).
      by rewrite !broadcast_lines_app, broadcast_lines_sends.
    + change (sleeps (Produce ?f :: ?tr)) with (sleeps tr).
      by rewrite !sleeps_app, sleeps_sends.
Qed.

End TickShape.

(** ** Ticks: delivery, pacing and the counter *)

(** X12.  In every tick, whichever sends raise, the ids the frame was
    delivered to are a prefix of the ids [emit] was called for, these
    are a prefix of the members of ['stream_frames'] in table order,
    and at most one call of [emit] did not deliver. *)
Theorem tick_delivers_prefix
    (png_base64 : string -> string)
    (emit_raises : string -> bool) (now : instant) (w : world) (i : N) :
  let t := tick png_base64 emit_raises now w i in
  (delivered "stream_frames" (tick_trace t)).*1 `prefix_of` rooms (tick_trace t)
  ∧ rooms (tick_trace t)
    `prefix_of` members_of (KStr stream_frames) (client_subscriptions w)
  ∧ (length (rooms (tick_trace t))
     ≤ S (length (delivered "stream_frames" (tick_trace t))))%nat.
Proof.
  intros t. subst t.
  rewrite <- (length_fmap fst (delivered "stream_frames" _)).
  destruct (tick_summary png_base64 emit_raises now w i)
    as [(_ & -> & -> & _)
       |[(_ & -> & -> & _)
        |(_ & before & x & rest & -> & _ & -> & -> & _)]].
  - split_and!; [by exists []|apply prefix_nil|simpl; lia].
  - split_and!; [done|done|lia].
  - split_and!.
    + by exists [ x ].
    + exists rest. by rewrite <- app_assoc.
    + rewrite length_app. simpl. lia.
Qed.

(** X13.  Every iteration of the scheduler loop sleeps exactly once, for
    one second: with an empty registry, after a broadcast, and after a
    caught error alike. *)
Theorem tick_sleeps_once
    (png_base64 : string -> string)
    (emit_raises : string -> bool) (now : instant) (w : world) (i : N) :
  sleeps (tick_trace (tick png_base64 emit_raises now w i)) = [ 1%nat ].
Proof.
  destruct (tick_summary png_base64 emit_raises now w i)
    as [(_ & _ & _ & _ & H & _)
       |[(_ & _ & _ & _ & H & _)
        |(_ & before & x & rest & _ & _ & _ & _ & _ & H & _)]]; exact H.
Qed.

(** X14.  A tick that ends without a caught error and with a non-empty
    registry prints, at line 164, a client count equal to the number of
    [stream_frames] events it delivered. *)
Theorem logged_count_matches_deliveries
    (png_base64 : string -> string)
    (emit_raises : string -> bool) (now : instant) (w : world) (i : N) :
  connected_clients w ≠ [] →
  let t := tick png_base64 emit_raises now w i in
  caught t = None →
  Print (LogBroadcasted ("test_frame_" +:+ str_of_N i)
           (length (delivered "stream_frames" (tick_trace t))))
  ∈ tick_trace t.
Proof.
  intros Hreg t Hcaught. subst t.
  destruct (tick_summary png_base64 emit_raises now w i)
    as [(Hempty & _)
       |[(_ & _ & Hd & _ & _ & _ & _ & Hline)
        |(_ & before & x & rest & _ & _ & _ & _ & _ & _ & Hc & _)]].
  - done.
  - rewrite <- (length_fmap fst), Hd. exact Hline.
  - by rewrite Hc in Hcaught.
Qed.

Lemma logged_count_matches_deliveries_witness :
  let w := shared (run fixture_png initial_hub
                     [ Connect "a" None noon; Subscribe "a" (PStr "stream_frames");
                       Connect "b" None noon; Subscribe "b" (PStr "news");
                       Subscribe "ghost" (PStr "stream_frames") ]).1 in
  let t := tick fixture_png all_sends_ok noon w 2 in
  connected_clients w ≠ []
  ∧ caught t = None
  ∧ length (delivered "stream_frames" (tick_trace t)) = 2%nat
  ∧ Print (LogBroadcasted "test_frame_2" 2) ∈ tick_trace t.
Proof.
  intros w t.
  assert (connected_clients w ≠ []) as Hreg by discriminate.
  split; [exact Hreg|]. split; [reflexivity|]. split; [reflexivity|].
  exact (logged_count_matches_deliveries fixture_png all_sends_ok noon w 2
           Hreg eq_refl).
Defined.

(** X15.  With connected clients of which none is subscribed to
    ['stream_frames'], a tick still generates an image, calls [emit]
    not at all, and advances the counter. *)
Theorem tick_without_subscribers
    (png_base64 : string -> string)
    (emit_raises : string -> bool) (now : instant) (w : world) (i : N) :
  connected_clients w ≠ [] →
  members_of (KStr stream_frames) (client_subscriptions w) = [] →
  let t := tick png_base64 emit_raises now w i in
  produced (tick_trace t) = [ generate_test_image png_base64 now ]
  ∧ outbound (tick_trace t) = []
  ∧ caught t = None
  ∧ next_counter t = (i + 1)%N.
Proof.
  intros Hreg Hnone t. subst t.
  rewrite tick_completes; [|done|].
  - by rewrite Hnone.
  - rewrite Hnone. intros sid Hsid. by apply elem_of_nil in Hsid.
Qed.

Lemma tick_without_subscribers_witness :
  let w := shared (run fixture_png initial_hub
                     [ Connect "a" None noon; Subscribe "a" (PStr "news") ]).1 in
  let t := tick fixture_png all_sends_ok noon w 0 in
  connected_clients w ≠ []
  ∧ length (produced (tick_trace t)) = 1%nat
  ∧ outbound (tick_trace t) = []
  ∧ next_counter t = 1%N.
Proof.
  intros w t.
  assert (connected_clients w ≠ []) as Hreg by discriminate.
  destruct (tick_without_subscribers fixture_png all_sends_ok noon w 0 Hreg eq_refl)
    as (Hp & Ho & _ & Hn).
  split; [exact Hreg|]. split; [exact (f_equal length Hp)|]. exact (conj Ho Hn).
Defined.

Lemma handler_broadcast_lines png_base64 h e :
  match e with
  | Tick _ _ => True
  | _ => broadcast_lines (step png_base64 h e).2 = 0%nat
  end.
Proof.
  destruct e as [sid addr now|sid|sid data|sid data|sid data|sid data now|];
    simpl; try done.
  - unfold handle_subscribe.
    destruct (subscribe_topic data) as [e|topic]; [done|].
    by destruct (hash_key topic).
  - unfold recieved_data. destruct (truthy data); [done|].
    by destruct (py_get data "data" PNone).
  - unfold handle_recieved_data. by destruct (truthy data).
  - unfold handle_request_image. destruct (truthy data); [|done].
    destruct (py_get data "type" PNone) as [|ty]; [done|].
    destruct (py_eq_str ty "request"); [done|].
    destruct (py_eq_str ty "feedback"); [|done].
    by destruct (py_get data "message" PNone).
Qed.

Lemma step_counter_lines png_base64 h e :
  counter (step png_base64 h e).1
  = (counter h + N.of_nat (broadcast_lines (step png_base64 h e).2))%N.
Proof.
  pose proof (handler_broadcast_lines png_base64 h e) as Hh.
  destruct e as [| | | | | |emit_raises now];
    try (rewrite Hh; simpl; lia).
  simpl.
  destruct (tick_summary png_base64 emit_raises now (shared h) (counter h))
    as [(_ & _ & _ & -> & _ & _ & ->)
       |[(_ & _ & _ & -> & _ & _ & -> & _)
        |(_ & before & x & rest & _ & _ & _ & _ & -> & _ & _ & ->)]]; simpl; lia.
Qed.

(** X16.  Over any run, the counter [i] of [broadcast_frames] grows by
    exactly the number of summary lines printed at line 164: it counts
    the ticks that broadcast a frame to the end, and nothing else moves
    it. *)
Theorem counter_counts_broadcasts
    (png_base64 : string -> string) (h : hub) (es : list event) :
  counter (run png_base64 h es).1
  = (counter h + N.of_nat (broadcast_lines (run png_base64 h es).2))%N.
Proof.
  revert h. induction es as [|e es IH]; intros h; simpl.
  { change (broadcast_lines []) with 0%nat. lia. }
  pose proof (step_counter_lines png_base64 h e) as H1.
  destruct (step png_base64 h e) as [h1 tr1]. specialize (IH h1).
  destruct (run png_base64 h1 es) as [h2 tr2]. simpl in *.
  rewrite broadcast_lines_app, IH, H1, Nat2N.inj_add. lia.
Qed.

(** X17.  The frame names of the scheduler identify the counter:
    different values of [i] give different names. *)
Theorem frame_name_injective (i j : N) :
  "test_frame_" +:+ str_of_N i = "test_frame_" +:+ str_of_N j → i = j.
Proof.
  intros Heq. apply (f_equal embedded_number) in Heq.
  rewrite !embedded_number_frame in Heq. by injection Heq.
Qed.

Lemma frame_name_injective_witness :
  "test_frame_" +:+ str_of_N (2 * 5) = "test_frame_10" ∧ (2 * 5)%N = 10%N.
Proof.
  split; [reflexivity|].
  apply (frame_name_injective (2 * 5) 10). reflexivity.
Defined.

(** ** The handlers that only log *)

(** X18.  The two generic data handlers never change the dictionaries
    and never call [emit] or the image generator.  [handle_recieved_data]
    never raises; the handler of ['recieved_data'] raises
    [AttributeError] exactly when the payload is falsy and is not a
    dictionary ([None], [False], [0], [""], [[]]), since its [else]
    branch calls [data.get]. *)
Theorem data_handlers_only_log (sid : string) (data : pyval) (w : world) :
  (after (recieved_data sid data w) = w
   ∧ outbound (trace (recieved_data sid data w)) = []
   ∧ produced (trace (recieved_data sid data w)) = []
   ∧ raised (recieved_data sid data w)
     = if truthy data then None
       else match data with PDict _ => None | _ => Some AttributeError end)
  ∧ (after (handle_recieved_data sid data w) = w
     ∧ outbound (trace (handle_recieved_data sid data w)) = []
     ∧ produced (trace (handle_recieved_data sid data w)) = []
     ∧ raised (handle_recieved_data sid data w) = None).
Proof.
  split.
  - unfold recieved_data. destruct (truthy data); [done|].
    by destruct data.
  - unfold handle_recieved_data. by destruct (truthy data).
Qed.

(** ** The direct image request: exceptions and production *)

(** X19.  [handle_request_image] calls the image generator exactly once
    when the payload's [type] is ["request"] and not at all otherwise
    (feedback included); it raises [AttributeError] exactly when the
    payload is truthy and is not a dictionary, and then has only printed
    the received line. *)
Theorem request_image_production
    (png_base64 : string -> string)
    (sid : string) (data : pyval) (now : instant) (w : world) :
  let r := handle_request_image png_base64 sid data now w in
  produced (trace r)
  = (if payload_type_is data "request"
     then [ generate_test_image png_base64 now ] else [])
  ∧ raised r
    = (if truthy data
       then match data with PDict _ => None | _ => Some AttributeError end
       else None)
  ∧ (raised r ≠ None → trace r = [ Print (LogRequestImage sid data) ]).
Proof.
  intros r. subst r. unfold handle_request_image, payload_type_is.
  destruct data as [|b|z|s|l|d]; simpl.
  - done.
  - by destruct b.
  - by destruct (negb (z =? 0)%Z).
  - by destruct (negb (String.eqb s "")).
  - by destruct l.
  - destruct d as [|entry d']; [done|].
    set (fields := entry :: d').
    destruct (dict_get fields "type") as [ty|]; simpl; [|done].
    destruct ty as [|b|z|s|l|d'']; simpl; try done.
    destruct (String.eqb s "request"); [done|].
    destruct (String.eqb s "feedback"); done.
Qed.

Lemma request_image_production_witness :
  let r := handle_request_image fixture_png "a" (PStr "request") noon initial_world in
  raised r = Some AttributeError
  ∧ trace r = [ Print (LogRequestImage "a" (PStr "request")) ].
Proof.
  intros r.
  destruct (request_image_production fixture_png "a" (PStr "request") noon initial_world)
    as (_ & Hr & Ht).
  split; [exact Hr|]. apply Ht. discriminate.
Defined.

Lemma direct_request_frame_number_witness :
  payload_type_is (PDict [ ("type", PStr "request") ]) "request" = true
  ∧ frame_numbers "a"
      (trace (handle_request_image fixture_png "a"
                (PDict [ ("type", PStr "request") ]) noon initial_world))
    = [ 1700000000%N ].
Proof.
  split; [reflexivity|].
  apply (direct_request_frame_number fixture_png "a"
           (PDict [ ("type", PStr "request") ]) noon initial_world); [reflexivity|].
  vm_compute. discriminate.
Defined.
